(** * rxjs-ai: the chat/completion orchestration layer

    A shallow embedding of [src/ai/types.ts], [src/ai/language-model.ts],
    [src/ai/streamText.ts], [src/ai/generateText.ts] and
    [src/ai/createChatController.ts], and the properties of the chat
    session controller and of the two completion primitives.

    Conventions of the embedding.
    - A JavaScript string is a [string]; its code units are restricted to
      the Latin-1 range, which is enough for [String.prototype.trim].
    - A thrown value ([unknown]) is a [Thrown]; an [Error] object carries a
      reference number standing for its identity.
    - The RxJS substrate is modelled, not verified: a notification is a
      [Notification]; a subscriber ignores everything pushed after it has
      stopped (terminal notification or [unsubscribe]).
    - Mutable objects shared by reference (the [AbortController] and the
      [Subscription] of each request) live in a store indexed by the
      request number. *)

From Stdlib Require Import ZArith QArith_base Ascii String List Lia Bool.
From stdpp Require Import base list strings.
Import ListNotations.

Set Implicit Arguments.

(* ------------------------------------------------------------------ *)
(** ** JavaScript values used by the sources                            *)
(* ------------------------------------------------------------------ *)

Module Js.

(** A value of type [unknown] that can be thrown or delivered on an
    error channel. [ErrorInstance ref msg] is [new Error(msg)]; [ref]
    is the object's identity. *)
Inductive Thrown : Type :=
| DOMException (message name : string)
| ErrorInstance (ref : nat) (message : string)
| OtherThrown (v : string).

(** A value of a [Record<string, unknown>]. *)
Inductive Value : Type :=
| VString (s : string)
| VNumber (n : Z)
| VBool (b : bool)
| VNull.

(** [Record<string, unknown>]: own enumerable keys with their values,
    keys pairwise distinct, so [Object.keys(r).length] is [length r]. *)
Definition Record_ := list (string * Value).

(** White space and line terminators of ECMAScript in the Latin-1
    range: TAB, LF, VT, FF, CR, SP and NBSP. *)
Definition isWhiteSpace (c : ascii) : bool :=
  let n := nat_of_ascii c in
  ((9 <=? n)%nat && (n <=? 13)%nat) || (n =? 32)%nat || (n =? 160)%nat.

Fixpoint trimStart (s : string) : string :=
  match s with
  | EmptyString => EmptyString
  | String c rest => if isWhiteSpace c then trimStart rest else s
  end.

Fixpoint trimEnd (s : string) : string :=
  match s with
  | EmptyString => EmptyString
  | String c rest =>
      match trimEnd rest with
      | EmptyString => if isWhiteSpace c then EmptyString else String c EmptyString
      | t => String c t
      end
  end.

(** [String.prototype.trim]. *)
Definition trim (s : string) : string := trimEnd (trimStart s).

(** The state of an [AbortSignal]. *)
Record AbortSignal : Type := mkSignal {
  aborted : bool;
  reason : option Thrown
}.

(** A reference to an [AbortSignal] object. *)
Definition SignalRef := nat.

(** The signals reachable when a sequence is subscribed. *)
Definition Heap := SignalRef -> AbortSignal.

End Js.

(* ------------------------------------------------------------------ *)
(** ** The stream substrate (RxJS)                                      *)
(* ------------------------------------------------------------------ *)

Module Rx.

Inductive Notification (T : Type) : Type :=
| Next (value : T)
| Error (err : Js.Thrown)
| Complete.
Arguments Next {T} value.
Arguments Error {T} err.
Arguments Complete {T}.

Definition isTerminal {T} (n : Notification T) : bool :=
  match n with Next _ => false | _ => true end.

(** What a subscriber sees of what a producer pushes: everything up to
    and including the first terminal notification. *)
Fixpoint untilTerminal {T} (pushes : list (Notification T)) : list (Notification T) :=
  match pushes with
  | [] => []
  | n :: rest => if isTerminal n then [n] else n :: untilTerminal rest
  end.

(** [BehaviorSubject]: the current value and the values it replaced,
    newest first. *)
Record BehaviorSubject (A : Type) : Type := mkSubject {
  value : A;
  emitted : list A
}.

Definition newSubject {A} (v : A) : BehaviorSubject A :=
  {| value := v; emitted := [] |}.

Definition getValue {A} (s : BehaviorSubject A) : A := value s.

Definition next {A} (v : A) (s : BehaviorSubject A) : BehaviorSubject A :=
  {| value := v; emitted := value s :: emitted s |}.

(** Every value the subject has held, newest first. *)
Definition emissions {A} (s : BehaviorSubject A) : list A :=
  value s :: emitted s.

End Rx.

(* ------------------------------------------------------------------ *)
(** ** types.ts                                                         *)
(* ------------------------------------------------------------------ *)

Module Types.

Inductive ChatRole : Type := system | user | assistant | tool.

Inductive ChatStatus : Type := idle | loading | streaming | error_ | cancelled.

(** [string | { content: string; done?: boolean }] *)
Inductive ChatChunk : Type :=
| ChunkString (s : string)
| ChunkObject (content : string) (done : option bool).

Record ChatMessage : Type := mkMessage {
  id : string;
  role : ChatRole;
  content : string;
  createdAt : Z;
  meta : option Js.Record_
}.

Record ChatModelRequest : Type := mkChatModelRequest {
  req_messages : list ChatMessage;
  req_signal : Js.SignalRef
}.

Record ChatState : Type := mkChatState {
  messages : list ChatMessage;
  status : ChatStatus;
  error : option Js.Thrown
}.

(** [complete(request)] returns a sequence; the embedding keeps what its
    producer pushes when it is subscribed. Later pushes are inputs of the
    controller's environment. *)
Record ChatModelAdapter : Type := mkAdapter {
  complete : ChatModelRequest -> list (Rx.Notification ChatChunk)
}.

End Types.

(* ------------------------------------------------------------------ *)
(** ** language-model.ts                                                *)
(* ------------------------------------------------------------------ *)

Module LM.

Definition MessageRole := Types.ChatRole.

Inductive MessagePart : Type :=
| TextPart (text : string)
| ToolCallPart (toolCallId toolName : string) (args : Js.Record_)
| ToolResultPart (toolCallId toolName : string) (result : Js.Value).

Record Message : Type := mkMessage {
  role : MessageRole;
  content : list MessagePart
}.

Record TokenUsage : Type := mkUsage {
  promptTokens : Z;
  completionTokens : Z;
  totalTokens : Z
}.

Inductive FinishReason : Type :=
| stop | length_ | tool_calls | error_reason | unknown.

Record TextResult : Type := mkTextResult {
  text : string;
  usage : TokenUsage;
  finishReason : FinishReason;
  messages : list Message
}.

Inductive TextStreamEvent : Type :=
| TextDeltaEvent (textDelta : string)
| FinishEvent (text : string) (usage : TokenUsage) (finishReason : FinishReason)
| ErrorEvent (error : Js.Thrown).

Record LanguageModelRequest : Type := mkRequest {
  req_messages : list Message;
  req_system : option string;
  req_temperature : option Q;
  req_maxTokens : option Z;
  req_topP : option Q;
  req_topK : option Z;
  req_stopSequences : option (list string);
  req_signal : option Js.SignalRef
}.

(** [doGenerate] and [doStream] return sequences; the embedding keeps
    what the producer of each pushes once it is subscribed. *)
Record LanguageModel : Type := mkModel {
  modelId : string;
  doGenerate : LanguageModelRequest -> list (Rx.Notification TextResult);
  doStream : LanguageModelRequest -> list (Rx.Notification TextStreamEvent)
}.

(** What a call of [streamText] or [generateText] and the subscriptions
    to its results do to the outside. *)
Inductive Effect : Type :=
| CallDoStream (request : LanguageModelRequest)
| CallDoGenerate (request : LanguageModelRequest)
| SubscribeSource
| OnFinish (result : TextResult).

(** One subscription to a sequence: what it does and what it delivers. *)
Record Run (T : Type) : Type := mkRun {
  effects : list Effect;
  delivered : list (Rx.Notification T)
}.

(** A lazily subscribed sequence; the heap gives the state of the
    signals at the time of the subscription. *)
Definition Observable (T : Type) := Js.Heap -> Run T.

(** The sequence a capability returned: subscribing to it runs its
    producer. *)
Definition fromProducer {T} (pushes : list (Rx.Notification T)) : Observable T :=
  fun _ => {| effects := [SubscribeSource]; delivered := Rx.untilTerminal pushes |}.

(** The values of the [Next] notifications. *)
Definition values {T} (ns : list (Rx.Notification T)) : list T :=
  omap (fun n => match n with Rx.Next v => Some v | _ => None end) ns.

(** The operators of the substrate that the sources use, for one
    subscriber. *)
Definition tap {T} (f : T -> list Effect) (source : Observable T) : Observable T :=
  fun h =>
    let r := source h in
    {| effects := effects r ++ concat (map f (values (delivered r)));
       delivered := delivered r |}.

(** [share()] with its default configuration: a subscriber that arrives
    while no connection is live (the first one, or one after the source
    completed or failed) connects to the source anew. Subscribers that
    join a live connection are outside this embedding. *)
Definition share {T} (source : Observable T) : Observable T := source.

(** [filter] with a type guard followed by [map] on the guarded type:
    what one notification becomes, and the operator. *)
Definition project {A B} (f : A -> option B) (n : Rx.Notification A)
  : option (Rx.Notification B) :=
  match n with
  | Rx.Next v => Rx.Next <$> f v
  | Rx.Error e => Some (Rx.Error e)
  | Rx.Complete => Some Rx.Complete
  end.

Definition filterMap {A B} (f : A -> option B) (source : Observable A) : Observable B :=
  fun h =>
    let r := source h in
    {| effects := effects r; delivered := omap (project f) (delivered r) |}.

Fixpoint scanFrom {A B} (f : B -> A -> B) (acc : B) (ns : list (Rx.Notification A))
  : list (Rx.Notification B) :=
  match ns with
  | [] => []
  | Rx.Next v :: rest => Rx.Next (f acc v) :: scanFrom f (f acc v) rest
  | Rx.Error e :: rest => Rx.Error e :: scanFrom f acc rest
  | Rx.Complete :: rest => Rx.Complete :: scanFrom f acc rest
  end.

Definition scan {A B} (f : B -> A -> B) (seed : B) (source : Observable A) : Observable B :=
  fun h =>
    let r := source h in
    {| effects := effects r; delivered := scanFrom f seed (delivered r) |}.

End LM.

(* ------------------------------------------------------------------ *)
(** ** streamText.ts                                                    *)
(* ------------------------------------------------------------------ *)

Module StreamText.
Import LM.

(** [onFinish] is a callback of the caller: the embedding records
    whether it was supplied, and its calls are [OnFinish] effects. *)
Record StreamTextOptions : Type := mkOptions {
  model : LanguageModel;
  messages : list Message;
  system : option string;
  temperature : option Q;
  maxTokens : option Z;
  topP : option Q;
  topK : option Z;
  stopSequences : option (list string);
  signal : option Js.SignalRef;
  onFinish : bool
}.

Record StreamTextResult : Type := mkResult {
  stream_ : Observable TextStreamEvent;
  text_ : Observable string;
  delta_ : Observable string
}.

(** [signal.reason ?? new DOMException("The operation was aborted.", "AbortError")] *)
Definition abortError (s : Js.AbortSignal) : Js.Thrown :=
  match Js.reason s with
  | Some r => r
  | None => Js.DOMException "The operation was aborted." "AbortError"
  end.

(** [applyAbortSignal], at subscription: without a signal the source
    itself; with a signal that is already aborted an immediate error and
    no subscription to the source; otherwise the source, listened to. *)
Definition applyAbortSignal {T} (signal : option Js.SignalRef) (source : Observable T)
  : Observable T :=
  match signal with
  | None => source
  | Some s =>
      fun h =>
        if Js.aborted (h s)
        then {| effects := []; delivered := [Rx.Error (abortError (h s))] |}
        else source h
  end.

(** [onAbort], the listener [applyAbortSignal] registers: what it pushes
    to the subscriber when the signal fires while the subscription is
    open. *)
Definition onAbort {T} (s : Js.AbortSignal) : Rx.Notification T :=
  Rx.Error (abortError s).

(** Every optional field of the options is set on the request exactly
    when it is not [undefined]. *)
Definition buildRequest (options : StreamTextOptions) : LanguageModelRequest :=
  {| req_messages := messages options;
     req_system := system options;
     req_temperature := temperature options;
     req_maxTokens := maxTokens options;
     req_topP := topP options;
     req_topK := topK options;
     req_stopSequences := stopSequences options;
     req_signal := signal options |}.

(** The body of the [tap] of [streamText]. *)
Definition tapOnFinish (options : StreamTextOptions) (event : TextStreamEvent)
  : list Effect :=
  match event with
  | FinishEvent t u r =>
      if onFinish options
      then [OnFinish {| text := t; usage := u; finishReason := r;
                        LM.messages := messages options |}]
      else []
  | _ => []
  end.

(** The type guard and the projection of [delta$]. *)
Definition textDeltaOf (event : TextStreamEvent) : option string :=
  match event with
  | TextDeltaEvent d => Some d
  | _ => None
  end.

(** The capability is called when [streamText] is called; the three
    sequences are built on the sequence it returned. *)
Definition streamText (options : StreamTextOptions) : list Effect * StreamTextResult :=
  let request := buildRequest options in
  let source := fromProducer (doStream (model options) request) in
  let stream := share (tap (tapOnFinish options) (applyAbortSignal (signal options) source)) in
  let delta := filterMap textDeltaOf stream in
  let text := scan (fun accumulated delta => accumulated +:+ delta) EmptyString delta in
  ([CallDoStream request],
   {| stream_ := stream; text_ := text; delta_ := delta |}).

End StreamText.

(* ------------------------------------------------------------------ *)
(** ** generateText.ts                                                  *)
(* ------------------------------------------------------------------ *)

Module GenerateText.
Import LM.

Record GenerateTextOptions : Type := mkOptions {
  model : LanguageModel;
  messages : list Message;
  system : option string;
  temperature : option Q;
  maxTokens : option Z;
  topP : option Q;
  topK : option Z;
  stopSequences : option (list string);
  signal : option Js.SignalRef
}.

Definition abortError (s : Js.AbortSignal) : Js.Thrown :=
  match Js.reason s with
  | Some r => r
  | None => Js.DOMException "The operation was aborted." "AbortError"
  end.

(** The copy of [applyAbortSignal] in generateText.ts. *)
Definition applyAbortSignal {T} (signal : option Js.SignalRef) (source : Observable T)
  : Observable T :=
  match signal with
  | None => source
  | Some s =>
      fun h =>
        if Js.aborted (h s)
        then {| effects := []; delivered := [Rx.Error (abortError (h s))] |}
        else source h
  end.

Definition buildRequest (options : GenerateTextOptions) : LanguageModelRequest :=
  {| req_messages := messages options;
     req_system := system options;
     req_temperature := temperature options;
     req_maxTokens := maxTokens options;
     req_topP := topP options;
     req_topK := topK options;
     req_stopSequences := stopSequences options;
     req_signal := signal options |}.

Definition generateText (options : GenerateTextOptions)
  : list Effect * Observable TextResult :=
  let request := buildRequest options in
  ([CallDoGenerate request],
   applyAbortSignal (signal options) (fromProducer (doGenerate (model options) request))).

End GenerateText.

(* ------------------------------------------------------------------ *)
(** ** createChatController.ts                                          *)
(* ------------------------------------------------------------------ *)

Module Chat.
Import Types.

(** [now] and [idGenerator] are impure: [now n] and [idGenerator n] are
    the results of their calls number [n]. The defaults ([Date.now] and
    the random generator) are functions of the same kind, so the options
    always carry the functions in effect. *)
Record CreateChatControllerOptions : Type := mkOptions {
  now : nat -> Z;
  idGenerator : nat -> string;
  initialMessages : list ChatMessage;
  system : option string;
  temperature : option Q;
  maxTokens : option Z
}.

(** [LanguageModel | ChatModelAdapter]; the constructor is what
    [isLanguageModel] finds out from the members of the object. *)
Inductive Model : Type :=
| Adapter (adapter : ChatModelAdapter)
| Rich (languageModel : LM.LanguageModel).

Definition isLanguageModel (model : Model) : bool :=
  match model with Rich _ => true | Adapter _ => false end.

Definition chunkToText (chunk : ChatChunk) : string :=
  match chunk with
  | ChunkString s => s
  | ChunkObject c _ => c
  end.

(** [Boolean(chunk.done)]: a missing flag is [false]. *)
Definition chunkIsDone (chunk : ChatChunk) : bool :=
  match chunk with
  | ChunkString _ => false
  | ChunkObject _ (Some d) => d
  | ChunkObject _ None => false
  end.

Definition chatMessagesToMessages (chatMessages : list ChatMessage) : list LM.Message :=
  map (fun msg => {| LM.role := role msg; LM.content := [LM.TextPart (content msg)] |})
      chatMessages.

(** The objects one call of [runCompletion] creates: the signal of its
    [AbortController], the subscription to the completion (closed after
    a terminal notification or [unsubscribe]), and the identifier its
    callbacks close over. *)
Record Request : Type := mkRequest {
  signal : Js.AbortSignal;
  closed : bool;
  assistantMessageId : string
}.

(** The variables of the closure [createChatController] returns. *)
Record Controller : Type := mkController {
  messagesSubject : Rx.BehaviorSubject (list ChatMessage);
  statusSubject : Rx.BehaviorSubject ChatStatus;
  errorSubject : Rx.BehaviorSubject (option Js.Thrown);
  stateSubject : Rx.BehaviorSubject ChatState;
  activeAbortController : option nat;
  activeSubscription : option nat;
  lastRequestMessages : option (list ChatMessage);
  idCalls : nat;
  nowCalls : nat;
  requests : list Request
}.

Definition with_messagesSubject v (c : Controller) : Controller :=
  mkController v (statusSubject c) (errorSubject c) (stateSubject c)
    (activeAbortController c) (activeSubscription c) (lastRequestMessages c)
    (idCalls c) (nowCalls c) (requests c).
Definition with_statusSubject v (c : Controller) : Controller :=
  mkController (messagesSubject c) v (errorSubject c) (stateSubject c)
    (activeAbortController c) (activeSubscription c) (lastRequestMessages c)
    (idCalls c) (nowCalls c) (requests c).
Definition with_errorSubject v (c : Controller) : Controller :=
  mkController (messagesSubject c) (statusSubject c) v (stateSubject c)
    (activeAbortController c) (activeSubscription c) (lastRequestMessages c)
    (idCalls c) (nowCalls c) (requests c).
Definition with_stateSubject v (c : Controller) : Controller :=
  mkController (messagesSubject c) (statusSubject c) (errorSubject c) v
    (activeAbortController c) (activeSubscription c) (lastRequestMessages c)
    (idCalls c) (nowCalls c) (requests c).
Definition with_activeAbortController v (c : Controller) : Controller :=
  mkController (messagesSubject c) (statusSubject c) (errorSubject c) (stateSubject c)
    v (activeSubscription c) (lastRequestMessages c)
    (idCalls c) (nowCalls c) (requests c).
Definition with_activeSubscription v (c : Controller) : Controller :=
  mkController (messagesSubject c) (statusSubject c) (errorSubject c) (stateSubject c)
    (activeAbortController c) v (lastRequestMessages c)
    (idCalls c) (nowCalls c) (requests c).
Definition with_lastRequestMessages v (c : Controller) : Controller :=
  mkController (messagesSubject c) (statusSubject c) (errorSubject c) (stateSubject c)
    (activeAbortController c) (activeSubscription c) v
    (idCalls c) (nowCalls c) (requests c).
Definition with_calls i n (c : Controller) : Controller :=
  mkController (messagesSubject c) (statusSubject c) (errorSubject c) (stateSubject c)
    (activeAbortController c) (activeSubscription c) (lastRequestMessages c)
    i n (requests c).
Definition with_requests v (c : Controller) : Controller :=
  mkController (messagesSubject c) (statusSubject c) (errorSubject c) (stateSubject c)
    (activeAbortController c) (activeSubscription c) (lastRequestMessages c)
    (idCalls c) (nowCalls c) v.

(** [getState()] *)
Definition getState (c : Controller) : ChatState := Rx.getValue (stateSubject c).

Definition emitState (c : Controller) : Controller :=
  with_stateSubject
    (Rx.next {| messages := Rx.getValue (messagesSubject c);
                status := Rx.getValue (statusSubject c);
                error := Rx.getValue (errorSubject c) |}
             (stateSubject c)) c.

Definition setMessages (ms : list ChatMessage) (c : Controller) : Controller :=
  emitState (with_messagesSubject (Rx.next ms (messagesSubject c)) c).

Definition setStatus (s : ChatStatus) (c : Controller) : Controller :=
  emitState (with_statusSubject (Rx.next s (statusSubject c)) c).

Definition setError (e : option Js.Thrown) (c : Controller) : Controller :=
  emitState (with_errorSubject (Rx.next e (errorSubject c)) c).

(** The heap the completion sequences are subscribed in. *)
Definition heapOf (c : Controller) : Js.Heap :=
  fun s : nat => match requests c !! s with
           | Some r => signal r
           | None => Js.mkSignal false None
           end.

(** [unsubscribe()], and the stop of a subscriber at a terminal
    notification. *)
Definition close (k : nat) (c : Controller) : Controller :=
  match requests c !! k with
  | Some r =>
      with_requests
        (<[k := mkRequest (signal r) true (assistantMessageId r)]> (requests c)) c
  | None => c
  end.

(** The signal of request [k] becomes aborted; without an argument
    [abort()] makes the reason an [AbortError]. *)
Definition markAborted (k : nat) (c : Controller) : Controller :=
  match requests c !! k with
  | Some r =>
      with_requests
        (<[k := mkRequest
                  (Js.mkSignal true
                     (Some (Js.DOMException "This operation was aborted" "AbortError")))
                  (closed r) (assistantMessageId r)]> (requests c)) c
  | None => c
  end.

Section Closure.

Variable model : Model.
Variable options : CreateChatControllerOptions.

Definition createMessage (role : ChatRole) (content : string)
           (meta : option Js.Record_) (c : Controller) : ChatMessage * Controller :=
  let message :=
    {| id := idGenerator options (idCalls c);
       role := role;
       content := content;
       createdAt := now options (nowCalls c);
       meta := match meta with
               | Some m => if (0 <? length m)%nat then Some m else None
               | None => None
               end |} in
  (message, with_calls (S (idCalls c)) (S (nowCalls c)) c).

(** The [error] callback of both subscriptions, given the
    [releaseActiveRequest] it calls. *)
Definition errorCallback (release : Controller -> Controller)
           (err : Js.Thrown) (c : Controller) : Controller :=
  release (setStatus error_ (setError (Some err) c)).

(** [activeAbortController.abort()] on the signal of request [k]: a
    signal that is already aborted fires nothing. On the [streamText]
    path the listener of [applyAbortSignal] is registered while the
    subscription is open, and pushes [onAbort] to the subscriber, which
    stops and runs the [error] callback. Low-level adapters are taken
    not to push from inside an abort listener. *)
Definition abort (release : option (Controller -> Controller))
           (k : nat) (c : Controller) : Controller :=
  match requests c !! k with
  | None => c
  | Some r =>
      if Js.aborted (signal r) then c
      else
        let c' := markAborted k c in
        if isLanguageModel model && negb (closed r)
        then match release,
                   (StreamText.onAbort (heapOf c' k) : Rx.Notification LM.TextStreamEvent)
             with
             | Some rel, Rx.Error err => errorCallback rel err (close k c')
             | _, _ => c'
             end
        else c'
  end.

(** [releaseActiveRequest]. The [error] callback an abort can run calls
    it again; [depth] bounds that nesting. *)
Fixpoint releaseActiveRequest_ (depth : nat) (c : Controller) : Controller :=
  let nested :=
    match depth with
    | O => None
    | S d => Some (releaseActiveRequest_ d)
    end in
  let c1 :=
    match activeAbortController c with
    | Some k => with_activeAbortController None (abort nested k c)
    | None => c
    end in
  match activeSubscription c1 with
  | Some k => with_activeSubscription None (close k c1)
  | None => c1
  end.

(** One level of nesting is all an execution reaches (see
    [releaseActiveRequest_depth]). *)
Definition releaseActiveRequest (c : Controller) : Controller :=
  releaseActiveRequest_ 1 c.

Definition finishRequest (c : Controller) : Controller :=
  setStatus idle (releaseActiveRequest c).

(** The function [appendDelta] maps over the messages. *)
Definition appendTo (assistantMessageId : string) (textDelta : string)
           (message : ChatMessage) : ChatMessage :=
  if String.eqb (id message) assistantMessageId
  then mkMessage (id message) (role message)
                 (content message +:+ textDelta)
                 (createdAt message) (meta message)
  else message.

Definition appendDelta (assistantMessageId : string) (textDelta : string)
           (c : Controller) : Controller :=
  if (0 <? String.length textDelta)%nat
  then
    let c1 := setStatus streaming c in
    setMessages
      (map (appendTo assistantMessageId textDelta) (Rx.getValue (messagesSubject c1)))
      c1
  else c.

(** The subscriber of the low-level adapter path. *)
Definition deliverChunk (k : nat) (n : Rx.Notification ChatChunk)
           (c : Controller) : Controller :=
  match requests c !! k with
  | None => c
  | Some r =>
      if closed r then c
      else
        match n with
        | Rx.Next chunk =>
            let c1 := appendDelta (assistantMessageId r) (chunkToText chunk) c in
            if chunkIsDone chunk then finishRequest c1 else c1
        | Rx.Error err => errorCallback releaseActiveRequest err (close k c)
        | Rx.Complete => finishRequest (close k c)
        end
  end.

(** The subscriber of [result.delta$] on the [streamText] path. *)
Definition deliverDelta (k : nat) (n : Rx.Notification string)
           (c : Controller) : Controller :=
  match requests c !! k with
  | None => c
  | Some r =>
      if closed r then c
      else
        match n with
        | Rx.Next delta => appendDelta (assistantMessageId r) delta c
        | Rx.Error err => errorCallback releaseActiveRequest err (close k c)
        | Rx.Complete => finishRequest (close k c)
        end
  end.

(** A notification of the sequence [doStream] returned, through the
    operators of [streamText] down to the subscriber of [delta$]. *)
Definition deliverEvent (k : nat) (n : Rx.Notification LM.TextStreamEvent)
           (c : Controller) : Controller :=
  match LM.project StreamText.textDeltaOf n with
  | Some n' => deliverDelta k n' c
  | None => c
  end.

(** [runCompletion], up to the subscription: the retry memory, the
    teardown of the previous request, and the reset of status and
    error. *)
Definition runCompletion_reset (baseMessages : list ChatMessage)
           (c : Controller) : Controller :=
  let c1 := with_lastRequestMessages (Some baseMessages) c in
  let c2 := releaseActiveRequest c1 in
  let c3 := setStatus loading c2 in
  setError None c3.

(** [runCompletion], from [new AbortController()] on. What the producer
    pushes during [subscribe] reaches the callbacks before
    [activeSubscription] is assigned. *)
Definition runCompletion_subscribe (baseMessages : list ChatMessage)
           (assistantMessageId : string) (c : Controller) : Controller :=
  let k := length (requests c) in
  let c1 :=
    with_activeAbortController (Some k)
      (with_requests
         (requests c ++ [mkRequest (Js.mkSignal false None) false assistantMessageId])
         c) in
  let c2 :=
    match model with
    | Rich languageModel =>
        let messages := chatMessagesToMessages baseMessages in
        let result :=
          snd (StreamText.streamText
                 {| StreamText.model := languageModel;
                    StreamText.messages := messages;
                    StreamText.system := system options;
                    StreamText.temperature := temperature options;
                    StreamText.maxTokens := maxTokens options;
                    StreamText.topP := None;
                    StreamText.topK := None;
                    StreamText.stopSequences := None;
                    StreamText.signal := Some k;
                    StreamText.onFinish := false |}) in
        fold_left (fun c n => deliverDelta k n c)
                  (LM.delivered (StreamText.delta_ result (heapOf c1))) c1
    | Adapter adapter =>
        fold_left (fun c n => deliverChunk k n c)
                  (complete adapter {| req_messages := baseMessages; req_signal := k |})
                  c1
    end in
  with_activeSubscription (Some k) c2.

Definition runCompletion (baseMessages : list ChatMessage)
           (assistantMessageId : string) (c : Controller) : Controller :=
  runCompletion_subscribe baseMessages assistantMessageId
    (runCompletion_reset baseMessages c).

Definition send (content : string) (meta : option Js.Record_)
           (c : Controller) : Controller :=
  let text := Js.trim content in
  if (String.length text =? 0)%nat then c
  else
    let c1 := releaseActiveRequest c in
    let currentMessages := Rx.getValue (messagesSubject c1) in
    let (userMessage, c2) := createMessage user text meta c1 in
    let (assistantMessage, c3) := createMessage assistant EmptyString None c2 in
    let c4 := setMessages (currentMessages ++ [userMessage; assistantMessage]) c3 in
    runCompletion (currentMessages ++ [userMessage]) (id assistantMessage) c4.

(** [releaseActiveRequest] and [createMessage] do not assign
    [lastRequestMessages], so the list read by the guard is the one
    used afterwards. *)
Definition retryLast (c : Controller) : Controller :=
  match lastRequestMessages c with
  | None => c
  | Some lastRequest =>
      let c1 := releaseActiveRequest c in
      let (assistantMessage, c2) := createMessage assistant EmptyString None c1 in
      let c3 := setMessages (lastRequest ++ [assistantMessage]) c2 in
      runCompletion lastRequest (id assistantMessage) c3
  end.

Definition cancel (c : Controller) : Controller :=
  setStatus cancelled (releaseActiveRequest c).

Definition createChatController : Controller :=
  {| messagesSubject := Rx.newSubject (initialMessages options);
     statusSubject := Rx.newSubject idle;
     errorSubject := Rx.newSubject None;
     stateSubject :=
       Rx.newSubject {| messages := initialMessages options;
                        status := idle;
                        error := None |};
     activeAbortController := None;
     activeSubscription := None;
     lastRequestMessages := None;
     idCalls := 0;
     nowCalls := 0;
     requests := [] |}.

(** What happens to a controller: a call of one of its operations, or
    the producer of the sequence of request [k] pushing a notification
    after the subscription returned. A push of the kind the model does
    not produce changes nothing. *)
Inductive Input : Type :=
| Send (content : string) (meta : option Js.Record_)
| RetryLast
| Cancel
| AdapterPush (k : nat) (n : Rx.Notification ChatChunk)
| ModelPush (k : nat) (n : Rx.Notification LM.TextStreamEvent).

Definition step (c : Controller) (i : Input) : Controller :=
  match i with
  | Send content meta => send content meta c
  | RetryLast => retryLast c
  | Cancel => cancel c
  | AdapterPush k n =>
      match model with
      | Adapter _ => deliverChunk k n c
      | Rich _ => c
      end
  | ModelPush k n =>
      match model with
      | Rich _ => deliverEvent k n c
      | Adapter _ => c
      end
  end.

Definition run (inputs : list Input) (c : Controller) : Controller :=
  fold_left step inputs c.

End Closure.

End Chat.

(* ------------------------------------------------------------------ *)
(** ** Auxiliary definitions of the verification                        *)
(* ------------------------------------------------------------------ *)

Unset Implicit Arguments.

Import Types Chat.

(** The second half of [releaseActiveRequest]. *)
Definition closeSubscription (c : Controller) : Controller :=
  match activeSubscription c with
  | Some k => with_activeSubscription None (close k c)
  | None => c
  end.

(** What [releaseActiveRequest] comes to, the nested call unfolded. *)
Definition releaseSpec (model : Model) (c : Controller) : Controller :=
  match activeAbortController c with
  | None => closeSubscription c
  | Some k =>
      match requests c !! k with
      | None => closeSubscription (with_activeAbortController None c)
      | Some r =>
          if Js.aborted (signal r)
          then closeSubscription (with_activeAbortController None c)
          else if isLanguageModel model && negb (closed r)
          then
            with_activeAbortController None
              (closeSubscription
                 (with_activeAbortController None
                    (setStatus error_
                       (setError
                          (Some (Js.DOMException "This operation was aborted" "AbortError"))
                          (close k (markAborted k c))))))
          else closeSubscription (with_activeAbortController None (markAborted k c))
      end
  end.

(** The current message list, status and error of a controller. *)
Definition messagesOf (c : Controller) : list ChatMessage := Rx.getValue (messagesSubject c).
Definition statusOf (c : Controller) : ChatStatus := Rx.getValue (statusSubject c).
Definition errorOf (c : Controller) : option Js.Thrown := Rx.getValue (errorSubject c).

(** A message and a later version of it: the same message, or, when its
    identifier may be written to, the same message with text appended to
    its content. *)
Definition contentExtends (touch : string -> Prop) (m m' : ChatMessage) : Prop :=
  m' = m \/
  (touch (id m) /\
   exists suffix,
     m' = mkMessage (id m) (role m) (content m +:+ suffix) (createdAt m) (meta m)).

Definition messagesExtend (touch : string -> Prop) (ms ms' : list ChatMessage) : Prop :=
  Forall2 (contentExtends touch) ms ms'.

(** The steps the callbacks and [releaseActiveRequest] are made of. *)
Inductive Evolves (touch : string -> Prop) : Controller -> Controller -> Prop :=
| ev_refl c : Evolves touch c c
| ev_trans a b c : Evolves touch a b -> Evolves touch b c -> Evolves touch a c
| ev_controller c v : Evolves touch c (with_activeAbortController v c)
| ev_subscription c v : Evolves touch c (with_activeSubscription v c)
| ev_close c k : Evolves touch c (close k c)
| ev_abort c k : Evolves touch c (markAborted k c)
| ev_error c e : Evolves touch c (setError e c)
| ev_status c s : Evolves touch c (setStatus s c)
| ev_append c aid delta :
    touch aid ->
    Evolves touch c (setMessages (map (appendTo aid delta) (messagesOf c)) c)
| ev_request c r : Evolves touch c (with_requests (requests c ++ [r]) c).

(** What every such step keeps. *)
Definition Frame (touch : string -> Prop) (c c' : Controller) : Prop :=
  messagesExtend touch (messagesOf c) (messagesOf c') /\
  lastRequestMessages c' = lastRequestMessages c /\
  idCalls c' = idCalls c /\
  nowCalls c' = nowCalls c /\
  (exists later,
      Rx.emissions (messagesSubject c') = later ++ Rx.emissions (messagesSubject c) /\
      Forall (messagesExtend touch (messagesOf c)) later) /\
  (exists later,
      Rx.emissions (stateSubject c') = later ++ Rx.emissions (stateSubject c) /\
      Forall (fun st => messagesExtend touch (messagesOf c) (messages st)) later) /\
  (forall j r,
      requests c !! j = Some r ->
      exists r',
        requests c' !! j = Some r' /\
        assistantMessageId r' = assistantMessageId r /\
        (closed r = true -> closed r' = true) /\
        (Js.aborted (signal r) = true -> Js.aborted (signal r') = true)).

(** The two messages a call of [send] creates in controller [c]. *)
Definition sentUserMessage (options : CreateChatControllerOptions)
           (content : string) (meta : option Js.Record_) (c : Controller) : ChatMessage :=
  {| id := idGenerator options (idCalls c);
     role := user;
     content := Js.trim content;
     createdAt := now options (nowCalls c);
     meta := match meta with
             | Some m => if (0 <? length m)%nat then Some m else None
             | None => None
             end |}.

Definition sentPlaceholder (options : CreateChatControllerOptions) (c : Controller)
  : ChatMessage :=
  {| id := idGenerator options (S (idCalls c));
     role := assistant;
     content := EmptyString;
     createdAt := now options (S (nowCalls c));
     meta := None |}.

(** The placeholder a call of [retryLast] creates in controller [c]. *)
Definition retryPlaceholder (options : CreateChatControllerOptions) (c : Controller)
  : ChatMessage :=
  {| id := idGenerator options (idCalls c);
     role := assistant;
     content := EmptyString;
     createdAt := now options (nowCalls c);
     meta := None |}.



(** The snapshot is the current value of the three subjects. *)
Definition Coherent (c : Controller) : Prop :=
  getState c =
  {| messages := messagesOf c; status := statusOf c; error := errorOf c |}.

(** Every request has been closed. *)
Definition allClosed (c : Controller) : Prop :=
  forall k r, requests c !! k = Some r -> closed r = true.

(** Between two inputs: the only subscription that can be open is the
    active one, and an active [AbortController] belongs to it. *)
Definition TopInv (c : Controller) : Prop :=
  (forall k r, requests c !! k = Some r -> closed r = false ->
               activeSubscription c = Some k) /\
  (forall j, activeAbortController c = Some j -> activeSubscription c = Some j).

(** While request [k] is being subscribed: no subscription is assigned
    yet, only request [k] can be open, and an active [AbortController] is
    its own. *)
Definition MidInv (k : nat) (c : Controller) : Prop :=
  (forall j r, requests c !! j = Some r -> closed r = false -> j = k) /\
  activeSubscription c = None /\
  (forall j, activeAbortController c = Some j -> j = k).


Definition deliverFailure (model : Model) (k : nat) (err : Js.Thrown)
           (c : Controller) : Controller :=
  match model with
  | Adapter _ => deliverChunk model k (Rx.Error err) c
  | Rich _ => deliverEvent model k (Rx.Error err) c
  end.




(** Two controllers with the same request store and active references. *)
Definition sameStore (c c' : Controller) : Prop :=
  requests c' = requests c /\
  activeAbortController c' = activeAbortController c /\
  activeSubscription c' = activeSubscription c.

(** The retry memory is only set once a completion has been started. *)
Definition startedInv (c : Controller) : Prop :=
  requests c = [] -> lastRequestMessages c = None.

(** Request [k] is open, and no other request's [AbortController] is
    active. *)
Definition inFlight (k : nat) (c : Controller) : Prop :=
  (exists r, requests c !! k = Some r /\ closed r = false) /\
  (forall j, activeAbortController c = Some j -> j = k).


(** Two controllers whose four subjects are the same: nothing was
    emitted in between. *)
Definition sameSubjects (c c' : Controller) : Prop :=
  messagesSubject c' = messagesSubject c /\
  statusSubject c' = statusSubject c /\
  errorSubject c' = errorSubject c /\
  stateSubject c' = stateSubject c.

(** An abort of the active controller reaches no listener: there is no
    active controller, or its signal is already aborted, or the model is a
    low-level adapter, or the subscription of its request is closed. *)
Definition quietAbort (model : Model) (c : Controller) : Prop :=
  forall j r,
    activeAbortController c = Some j ->
    requests c !! j = Some r ->
    Js.aborted (signal r) = true \/ isLanguageModel model && negb (closed r) = false.

(* ------------------------------------------------------------------ *)
(** ** Concrete controllers                                             *)
(* ------------------------------------------------------------------ *)

(** Identifiers ["0"], ["1"], ... and a clock that ticks at every call. *)
Definition exampleIds (n : nat) : string := String (ascii_of_nat (48 + n)) EmptyString.

Definition exampleOptions : CreateChatControllerOptions :=
  {| now := fun n => Z.of_nat n;
     idGenerator := exampleIds;
     initialMessages := [];
     system := None;
     temperature := None;
     maxTokens := None |}.

(** An adapter whose sequence pushes the given notifications when it is
    subscribed, whatever the request. *)
Definition adapterOf (pushes : list (Rx.Notification ChatChunk)) : Model :=
  Adapter {| complete := fun _ => pushes |}.


(** An adapter and a language model whose sequences never push at
    subscription. *)
Definition pendingAdapter : Model := adapterOf [].

Definition pendingLanguageModel : Model :=
  Rich {| LM.modelId := "mock:slow";
          LM.doGenerate := fun _ => [];
          LM.doStream := fun _ => [] |}.




(** The adapter of the scenario of C6: two chunks pushed when the
    sequence is subscribed, the second one flagged [done], and no
    completion. *)
Definition doneAdapter : Model :=
  adapterOf [Rx.Next (ChunkObject "Hello" (Some false));
             Rx.Next (ChunkObject " World" (Some true))].

(* ------------------------------------------------------------------ *)
(** ** Auxiliary definitions for [streamText] and [generateText]        *)
(* ------------------------------------------------------------------ *)

(** The results [onFinish] was called with, in order. *)
Definition onFinishCalls (effs : list LM.Effect) : list LM.TextResult :=
  omap (fun e => match e with LM.OnFinish r => Some r | _ => None end) effs.



(** A capability of the model was called. *)
Definition invokesCapability (effs : list LM.Effect) : Prop :=
  exists e, In e effs /\
            match e with
            | LM.CallDoStream _ | LM.CallDoGenerate _ => True
            | _ => False
            end.

(** The effects of a call of [streamText] and of one subscription to each
    of its three sequences, and those of [generateText] and one
    subscription to its sequence. *)
Definition streamTextEffects (o : StreamText.StreamTextOptions) (h : Js.Heap)
  : list LM.Effect :=
  fst (StreamText.streamText o)
  ++ LM.effects (StreamText.stream_ (snd (StreamText.streamText o)) h)
  ++ LM.effects (StreamText.delta_ (snd (StreamText.streamText o)) h)
  ++ LM.effects (StreamText.text_ (snd (StreamText.streamText o)) h).

Definition generateTextEffects (g : GenerateText.GenerateTextOptions) (h : Js.Heap)
  : list LM.Effect :=
  fst (GenerateText.generateText g) ++ LM.effects (snd (GenerateText.generateText g) h).

(** The claim C3 as the specification words it. *)
Definition preabortedNeverInvokes : Prop :=
  forall (o : StreamText.StreamTextOptions) (h : Js.Heap) (s : Js.SignalRef),
    StreamText.signal o = Some s ->
    Js.aborted (h s) = true ->
    ~ invokesCapability (streamTextEffects o h).


Definition exampleUsage : LM.TokenUsage :=
  {| LM.promptTokens := 10; LM.completionTokens := 5; LM.totalTokens := 15 |}.

Definition exampleMessages : list LM.Message :=
  [{| LM.role := user; LM.content := [LM.TextPart "Hi"] |}].

Definition exampleResult : LM.TextResult :=
  {| LM.text := "Hello"; LM.usage := exampleUsage; LM.finishReason := LM.stop;
     LM.messages := exampleMessages |}.

(** A model whose stream is a delta and a finish event, then the
    completion. *)
Definition exampleLanguageModel : LM.LanguageModel :=
  {| LM.modelId := "mock:test";
     LM.doGenerate := fun _ => [Rx.Next exampleResult; Rx.Complete];
     LM.doStream := fun _ =>
       [Rx.Next (LM.TextDeltaEvent "Hello");
        Rx.Next (LM.FinishEvent "Hello" exampleUsage LM.stop);
        Rx.Complete] |}.


Definition streamOptionsOf (m : LM.LanguageModel) (signal : option Js.SignalRef)
  : StreamText.StreamTextOptions :=
  {| StreamText.model := m;
     StreamText.messages := exampleMessages;
     StreamText.system := None;
     StreamText.temperature := None;
     StreamText.maxTokens := None;
     StreamText.topP := None;
     StreamText.topK := None;
     StreamText.stopSequences := None;
     StreamText.signal := signal;
     StreamText.onFinish := true |}.

Definition generateOptionsOf (m : LM.LanguageModel) (signal : option Js.SignalRef)
  : GenerateText.GenerateTextOptions :=
  {| GenerateText.model := m;
     GenerateText.messages := exampleMessages;
     GenerateText.system := None;
     GenerateText.temperature := None;
     GenerateText.maxTokens := None;
     GenerateText.topP := None;
     GenerateText.topK := None;
     GenerateText.stopSequences := None;
     GenerateText.signal := signal |}.

(** The heap after [controller.abort()] on every signal, and the heap in
    which no signal is aborted. *)
Definition abortedHeap : Js.Heap :=
  fun _ => Js.mkSignal true (Some (Js.DOMException "This operation was aborted" "AbortError")).

Definition freshHeap : Js.Heap := fun _ => Js.mkSignal false None.


(** A controller with a completion in flight, on each path. *)
Definition pendingOnAdapter : Controller :=
  send pendingAdapter exampleOptions "Hi" None (createChatController exampleOptions).

Definition pendingOnLanguageModel : Controller :=
  send pendingLanguageModel exampleOptions "Hi" None (createChatController exampleOptions).

(** The controller of the scenario of C6 when [send] has returned. *)
Definition afterDoneChunk : Controller :=
  send doneAdapter exampleOptions "test" None (createChatController exampleOptions).

Arguments releaseActiveRequest : simpl never.
Arguments runCompletion : simpl never.

(* ------------------------------------------------------------------ *)
(** ** The request store                                                *)
(* ------------------------------------------------------------------ *)

Lemma lookup_close_eq k c r :
  requests c !! k = Some r ->
  requests (close k c) !! k = Some (mkRequest (signal r) true (assistantMessageId r)).
Proof.
  intros Hr. unfold close. rewrite Hr. simpl.
  apply list_lookup_insert_eq. eapply lookup_lt_Some; eassumption.
Qed.

Lemma lookup_close_ne k j c :
  j <> k -> requests (close k c) !! j = requests c !! j.
Proof.
  intros Hne. unfold close. destruct (requests c !! k); [simpl|reflexivity].
  apply list_lookup_insert_ne. congruence.
Qed.

Lemma close_missing k c : requests c !! k = None -> close k c = c.
Proof. intros Hr. unfold close. rewrite Hr. reflexivity. Qed.

Lemma lookup_markAborted_eq k c r :
  requests c !! k = Some r ->
  requests (markAborted k c) !! k =
    Some (mkRequest
            (Js.mkSignal true (Some (Js.DOMException "This operation was aborted" "AbortError")))
            (closed r) (assistantMessageId r)).
Proof.
  intros Hr. unfold markAborted. rewrite Hr. simpl.
  apply list_lookup_insert_eq. eapply lookup_lt_Some; eassumption.
Qed.

Lemma lookup_markAborted_ne k j c :
  j <> k -> requests (markAborted k c) !! j = requests c !! j.
Proof.
  intros Hne. unfold markAborted. destruct (requests c !! k); [simpl|reflexivity].
  apply list_lookup_insert_ne. congruence.
Qed.

(* ------------------------------------------------------------------ *)
(** ** [releaseActiveRequest] without recursion                         *)
(* ------------------------------------------------------------------ *)

Lemma release_of_aborted model d c k r :
  activeAbortController c = Some k ->
  requests c !! k = Some r ->
  Js.aborted (signal r) = true ->
  releaseActiveRequest_ model d c = closeSubscription (with_activeAbortController None c).
Proof.
  intros Hk Hr Ha.
  destruct d; simpl; rewrite Hk; unfold abort; rewrite Hr, Ha; reflexivity.
Qed.

Lemma closeSubscription_none c :
  activeSubscription c = None -> closeSubscription c = c.
Proof. intros H. unfold closeSubscription. rewrite H. reflexivity. Qed.

Lemma closeSubscription_active c :
  activeSubscription (closeSubscription c) = None.
Proof.
  unfold closeSubscription. destruct (activeSubscription c) eqn:E; [reflexivity|exact E].
Qed.

Lemma release_unfold model d c :
  releaseActiveRequest_ model (S d) c =
  closeSubscription
    match activeAbortController c with
    | Some k =>
        with_activeAbortController None
          (abort model (Some (releaseActiveRequest_ model d)) k c)
    | None => c
    end.
Proof. reflexivity. Qed.

Lemma release_eq model d c :
  releaseActiveRequest_ model (S d) c = releaseSpec model c.
Proof.
  unfold releaseSpec. rewrite release_unfold.
  destruct (activeAbortController c) as [k|] eqn:Hk; [|reflexivity].
  unfold abort. destruct (requests c !! k) as [r|] eqn:Hr; [|reflexivity].
  destruct (Js.aborted (signal r)) eqn:Ha; [reflexivity|].
  destruct (isLanguageModel model && negb (closed r)) eqn:Hl; [|reflexivity].
  unfold StreamText.onAbort, errorCallback. cbv beta iota.
  assert (Hh : StreamText.abortError (heapOf (markAborted k c) k)
               = Js.DOMException "This operation was aborted" "AbortError").
  { unfold heapOf. cbv beta. rewrite (lookup_markAborted_eq _ _ _ Hr). reflexivity. }
  rewrite Hh.
  set (c3 := setStatus error_ (setError _ (close k (markAborted k c)))).
  assert (Hr3 : requests c3 !! k =
                Some (mkRequest
                        (Js.mkSignal true
                           (Some (Js.DOMException "This operation was aborted" "AbortError")))
                        true (assistantMessageId r))).
  { subst c3. cbn. rewrite (lookup_close_eq _ _ _ (lookup_markAborted_eq _ _ _ Hr)). reflexivity. }
  assert (Hk3 : activeAbortController c3 = Some k).
  { subst c3. cbn. unfold close, markAborted. rewrite Hr. cbn.
    rewrite list_lookup_insert_eq by (eapply lookup_lt_Some; eassumption). cbn. exact Hk. }
  rewrite (release_of_aborted model d c3 _ _ Hk3 Hr3 eq_refl).
  rewrite (closeSubscription_none (with_activeAbortController None (closeSubscription _))).
  - reflexivity.
  - cbn. apply closeSubscription_active.
Qed.

(** The nesting depth is irrelevant from one on. *)
Lemma releaseActiveRequest_depth model d c :
  releaseActiveRequest_ model (S d) c = releaseActiveRequest model c.
Proof. unfold releaseActiveRequest. rewrite !release_eq. reflexivity. Qed.

Lemma releaseActiveRequest_eq model c :
  releaseActiveRequest model c = releaseSpec model c.
Proof. apply release_eq. Qed.

(* ------------------------------------------------------------------ *)
(** ** Messages only grow by appended content                           *)
(* ------------------------------------------------------------------ *)

Lemma append_cons ch (a b : string) : String ch a +:+ b = String ch (a +:+ b).
Proof. reflexivity. Qed.

Lemma append_assoc (a b c : string) : (a +:+ b) +:+ c = a +:+ (b +:+ c).
Proof. induction a as [|ch a IH]; [reflexivity|]. now rewrite !append_cons, IH. Qed.

Lemma append_nil_r (a : string) : a +:+ EmptyString = a.
Proof. induction a as [|ch a IH]; [reflexivity|]. now rewrite append_cons, IH. Qed.

Lemma contentExtends_refl touch m : contentExtends touch m m.
Proof. now left. Qed.

Lemma contentExtends_trans touch a b c :
  contentExtends touch a b -> contentExtends touch b c -> contentExtends touch a c.
Proof.
  intros [->|[Ha [s1 ->]]] [->|[Hb [s2 ->]]].
  - now left.
  - right. split; [assumption | now exists s2].
  - right. split; [assumption | now exists s1].
  - right. split; [assumption|]. exists (s1 +:+ s2).
    cbn [id role content createdAt meta]. now rewrite append_assoc.
Qed.

Lemma contentExtends_weaken (touch touch' : string -> Prop) m m' :
  (forall i, touch i -> touch' i) ->
  contentExtends touch m m' -> contentExtends touch' m m'.
Proof.
  intros Hw [->|[Ht Hs]]; [now left | right; split; auto].
Qed.


Lemma contentExtends_appendTo (touch : string -> Prop) aid delta m :
  touch aid -> contentExtends touch m (appendTo aid delta m).
Proof.
  intros Ht. unfold appendTo. destruct (String.eqb (id m) aid) eqn:E.
  - apply String.eqb_eq in E. right. split; [now rewrite E | now exists delta].
  - now left.
Qed.

Lemma messagesExtend_refl touch ms : messagesExtend touch ms ms.
Proof. induction ms; constructor; [apply contentExtends_refl | assumption]. Qed.

Lemma messagesExtend_trans touch a b c :
  messagesExtend touch a b -> messagesExtend touch b c -> messagesExtend touch a c.
Proof.
  unfold messagesExtend. intros Hab Hbc.
  eapply Forall2_trans; [|exact Hab|exact Hbc].
  intros x y z. apply contentExtends_trans.
Qed.

Lemma messagesExtend_weaken (touch touch' : string -> Prop) ms ms' :
  (forall i, touch i -> touch' i) ->
  messagesExtend touch ms ms' -> messagesExtend touch' ms ms'.
Proof.
  intros Hw H. eapply Forall2_impl; [exact H|].
  intros x y. now apply contentExtends_weaken.
Qed.


Lemma messagesExtend_map touch aid delta ms :
  touch aid -> messagesExtend touch ms (map (appendTo aid delta) ms).
Proof.
  intros Ht. induction ms; simpl; constructor;
    [now apply contentExtends_appendTo | assumption].
Qed.

(* ------------------------------------------------------------------ *)
(** ** The frame of the internal steps                                  *)
(* ------------------------------------------------------------------ *)

Lemma Frame_refl touch c : Frame touch c c.
Proof.
  unfold Frame. split; [apply messagesExtend_refl|].
  repeat split; try reflexivity.
  - exists []. split; [reflexivity | constructor].
  - exists []. split; [reflexivity | constructor].
  - intros j r Hr. exists r. auto.
Qed.

Lemma Frame_trans touch a b c : Frame touch a b -> Frame touch b c -> Frame touch a c.
Proof.
  intros (Hm1 & Hl1 & Hi1 & Hn1 & (l1 & He1 & Hf1) & (t1 & Hs1 & Hg1) & Hr1)
         (Hm2 & Hl2 & Hi2 & Hn2 & (l2 & He2 & Hf2) & (t2 & Hs2 & Hg2) & Hr2).
  unfold Frame. split; [eapply messagesExtend_trans; eassumption|].
  split; [congruence|]. split; [congruence|]. split; [congruence|]. split; [|split].
  - exists (l2 ++ l1). split.
    + rewrite He2, He1. now rewrite app_assoc.
    + apply Forall_app. split; [|assumption].
      eapply Forall_impl; [exact Hf2|]. intros ms Hms.
      eapply messagesExtend_trans; eassumption.
  - exists (t2 ++ t1). split.
    + rewrite Hs2, Hs1. now rewrite app_assoc.
    + apply Forall_app. split; [|assumption].
      eapply Forall_impl; [exact Hg2|]. intros st Hst.
      eapply messagesExtend_trans; eassumption.
  - intros j r Hr. destruct (Hr1 j r Hr) as (r1 & Hj1 & Ha1 & Hc1 & Hb1).
    destruct (Hr2 j r1 Hj1) as (r2 & Hj2 & Ha2 & Hc2 & Hb2).
    exists r2. repeat split; auto; congruence.
Qed.

(** A step that touches neither the subjects nor the retry memory nor the
    counters, and whose requests are those of [c] up to closing and
    aborting. *)
Lemma Frame_store touch c c' :
  messagesSubject c' = messagesSubject c ->
  stateSubject c' = stateSubject c ->
  lastRequestMessages c' = lastRequestMessages c ->
  idCalls c' = idCalls c -> nowCalls c' = nowCalls c ->
  (forall j r, requests c !! j = Some r ->
     exists r', requests c' !! j = Some r' /\
       assistantMessageId r' = assistantMessageId r /\
       (closed r = true -> closed r' = true) /\
       (Js.aborted (signal r) = true -> Js.aborted (signal r') = true)) ->
  Frame touch c c'.
Proof.
  intros Hm Hs Hl Hi Hn Hr. unfold Frame, messagesOf. rewrite Hm, Hs.
  split; [apply messagesExtend_refl|]. repeat split; auto.
  - exists []. split; [reflexivity | constructor].
  - exists []. split; [reflexivity | constructor].
Qed.

(** A step that emits one snapshot with the messages as they are. *)
Lemma Frame_emit touch c c' st :
  messagesSubject c' = messagesSubject c ->
  stateSubject c' = Rx.next st (stateSubject c) ->
  messages st = messagesOf c ->
  lastRequestMessages c' = lastRequestMessages c ->
  idCalls c' = idCalls c -> nowCalls c' = nowCalls c ->
  requests c' = requests c ->
  Frame touch c c'.
Proof.
  intros Hm Hs Hst Hl Hi Hn Hr. unfold Frame, messagesOf. rewrite Hm, Hs, Hr.
  split; [apply messagesExtend_refl|]. repeat split; auto.
  - exists []. split; [reflexivity | constructor].
  - exists [st]. split; [reflexivity|]. constructor; [|constructor].
    rewrite Hst. apply messagesExtend_refl.
  - intros j r Hj. exists r. auto.
Qed.

Lemma requests_keep c j r :
  requests c !! j = Some r ->
  exists r', requests c !! j = Some r' /\
    assistantMessageId r' = assistantMessageId r /\
    (closed r = true -> closed r' = true) /\
    (Js.aborted (signal r) = true -> Js.aborted (signal r') = true).
Proof. intros H. exists r. auto. Qed.

Lemma Evolves_Frame touch c c' : Evolves touch c c' -> Frame touch c c'.
Proof.
  induction 1.
  - apply Frame_refl.
  - eapply Frame_trans; eassumption.
  - apply Frame_store; try reflexivity. intros j r0 Hr0; exists r0; auto.
  - apply Frame_store; try reflexivity. intros j r0 Hr0; exists r0; auto.
  - apply Frame_store; try (unfold close; destruct (requests c !! k); reflexivity).
    intros j r Hr. destruct (decide (j = k)) as [->|Hne].
    + rewrite (lookup_close_eq _ _ _ Hr). eexists. split; [reflexivity|]. simpl. auto.
    + rewrite (lookup_close_ne _ _ _ Hne). now apply requests_keep.
  - apply Frame_store; try (unfold markAborted; destruct (requests c !! k); reflexivity).
    intros j r Hr. destruct (decide (j = k)) as [->|Hne].
    + rewrite (lookup_markAborted_eq _ _ _ Hr). eexists. split; [reflexivity|]. simpl. auto.
    + rewrite (lookup_markAborted_ne _ _ _ Hne). now apply requests_keep.
  - eapply Frame_emit; reflexivity.
  - eapply Frame_emit; reflexivity.
  - unfold Frame. split; [now apply messagesExtend_map|].
    repeat split; try reflexivity.
    + exists [map (appendTo aid delta) (messagesOf c)]. split; [reflexivity|].
      constructor; [now apply messagesExtend_map | constructor].
    + eexists [_]. split; [reflexivity|].
      constructor; [now apply messagesExtend_map | constructor].
    + intros j r0 Hr0; exists r0; auto.
  - apply Frame_store; try reflexivity.
    intros j r0 Hr. exists r0. split; [|auto]. simpl.
    apply lookup_app_l_Some. exact Hr.
Qed.


Lemma Frame_retry touch c c' :
  Frame touch c c' -> lastRequestMessages c' = lastRequestMessages c.
Proof. intros H. apply H. Qed.

Lemma Frame_counters touch c c' :
  Frame touch c c' -> idCalls c' = idCalls c /\ nowCalls c' = nowCalls c.
Proof. intros H. split; apply H. Qed.



Lemma Frame_requests touch c c' j r :
  Frame touch c c' ->
  requests c !! j = Some r ->
  exists r',
    requests c' !! j = Some r' /\
    assistantMessageId r' = assistantMessageId r /\
    (closed r = true -> closed r' = true) /\
    (Js.aborted (signal r) = true -> Js.aborted (signal r') = true).
Proof. intros H. apply H. Qed.

Lemma Evolves_weaken (touch touch' : string -> Prop) c c' :
  (forall i, touch i -> touch' i) -> Evolves touch c c' -> Evolves touch' c c'.
Proof.
  intros Hw H. induction H; try (now constructor).
  - eapply ev_trans; eassumption.
  - apply ev_append. auto.
Qed.

Lemma closeSubscription_evolves touch c : Evolves touch c (closeSubscription c).
Proof.
  unfold closeSubscription. destruct (activeSubscription c) as [k|]; [|apply ev_refl].
  eapply ev_trans; [apply ev_close | apply ev_subscription].
Qed.

Lemma releaseSpec_evolves touch model c : Evolves touch c (releaseSpec model c).
Proof.
  unfold releaseSpec.
  destruct (activeAbortController c) as [k|]; [|apply closeSubscription_evolves].
  destruct (requests c !! k) as [r|].
  - destruct (Js.aborted (signal r)).
    + eapply ev_trans; [apply ev_controller | apply closeSubscription_evolves].
    + destruct (isLanguageModel model && negb (closed r)).
      * eapply ev_trans; [apply ev_abort|].
        eapply ev_trans; [apply ev_close|].
        eapply ev_trans; [apply ev_error|].
        eapply ev_trans; [apply ev_status|].
        eapply ev_trans; [apply ev_controller|].
        eapply ev_trans; [apply closeSubscription_evolves | apply ev_controller].
      * eapply ev_trans; [apply ev_abort|].
        eapply ev_trans; [apply ev_controller | apply closeSubscription_evolves].
  - eapply ev_trans; [apply ev_controller | apply closeSubscription_evolves].
Qed.

Lemma release_evolves touch model c : Evolves touch c (releaseActiveRequest model c).
Proof. rewrite releaseActiveRequest_eq. apply releaseSpec_evolves. Qed.

Lemma finishRequest_evolves touch model c : Evolves touch c (finishRequest model c).
Proof.
  unfold finishRequest. eapply ev_trans; [apply release_evolves | apply ev_status].
Qed.

Lemma errorCallback_evolves touch model err c :
  Evolves touch c (errorCallback (releaseActiveRequest model) err c).
Proof.
  unfold errorCallback.
  eapply ev_trans; [apply ev_error|].
  eapply ev_trans; [apply ev_status | apply release_evolves].
Qed.

Lemma appendDelta_evolves (touch : string -> Prop) aid delta c :
  touch aid -> Evolves touch c (appendDelta aid delta c).
Proof.
  intros Ht. unfold appendDelta.
  destruct (0 <? String.length delta)%nat; [|apply ev_refl].
  eapply ev_trans; [apply ev_status|]. now apply (ev_append touch _ aid delta).
Qed.

Lemma deliverChunk_evolves (touch : string -> Prop) model k n c :
  (forall r, requests c !! k = Some r -> touch (assistantMessageId r)) ->
  Evolves touch c (deliverChunk model k n c).
Proof.
  intros Ht. unfold deliverChunk.
  destruct (requests c !! k) as [r|]; [|apply ev_refl].
  destruct (closed r); [apply ev_refl|].
  destruct n as [chunk|err|].
  - destruct (chunkIsDone chunk).
    + eapply ev_trans; [apply appendDelta_evolves; auto | apply finishRequest_evolves].
    + apply appendDelta_evolves; auto.
  - eapply ev_trans; [apply ev_close | apply errorCallback_evolves].
  - eapply ev_trans; [apply ev_close | apply finishRequest_evolves].
Qed.

Lemma deliverDelta_evolves (touch : string -> Prop) model k n c :
  (forall r, requests c !! k = Some r -> touch (assistantMessageId r)) ->
  Evolves touch c (deliverDelta model k n c).
Proof.
  intros Ht. unfold deliverDelta.
  destruct (requests c !! k) as [r|]; [|apply ev_refl].
  destruct (closed r); [apply ev_refl|].
  destruct n as [delta|err|].
  - apply appendDelta_evolves; auto.
  - eapply ev_trans; [apply ev_close | apply errorCallback_evolves].
  - eapply ev_trans; [apply ev_close | apply finishRequest_evolves].
Qed.

Lemma deliverEvent_evolves (touch : string -> Prop) model k n c :
  (forall r, requests c !! k = Some r -> touch (assistantMessageId r)) ->
  Evolves touch c (deliverEvent model k n c).
Proof.
  intros Ht. unfold deliverEvent.
  destruct (LM.project StreamText.textDeltaOf n); [|apply ev_refl].
  now apply deliverDelta_evolves.
Qed.

(** A fold of deliveries to one request. *)
Lemma fold_evolves {N} (touch : string -> Prop) (deliver : Controller -> N -> Controller)
      k (ns : list N) :
  (forall c n,
      (forall r', requests c !! k = Some r' -> touch (assistantMessageId r')) ->
      Evolves touch c (deliver c n)) ->
  forall c r, requests c !! k = Some r -> touch (assistantMessageId r) ->
              Evolves touch c (fold_left deliver ns c).
Proof.
  intros Hd. induction ns as [|n ns IH]; intros c r Hr Ht; simpl; [apply ev_refl|].
  assert (Hstep : Evolves touch c (deliver c n)).
  { apply Hd. intros r' Hr'. congruence. }
  destruct (Frame_requests _ _ _ k r (Evolves_Frame _ _ _ Hstep) Hr) as (r1 & Hr1 & Ha1 & _).
  eapply ev_trans; [exact Hstep|].
  apply (IH _ r1 Hr1). now rewrite Ha1.
Qed.


(* ------------------------------------------------------------------ *)
(** ** [releaseActiveRequest] leaves the messages alone                 *)
(* ------------------------------------------------------------------ *)


Lemma messagesSubject_close k c : messagesSubject (close k c) = messagesSubject c.
Proof. unfold close. destruct (requests c !! k); reflexivity. Qed.

Lemma messagesSubject_markAborted k c : messagesSubject (markAborted k c) = messagesSubject c.
Proof. unfold markAborted. destruct (requests c !! k); reflexivity. Qed.

Lemma messagesSubject_closeSubscription c :
  messagesSubject (closeSubscription c) = messagesSubject c.
Proof.
  unfold closeSubscription. destruct (activeSubscription c); [|reflexivity].
  cbn. apply messagesSubject_close.
Qed.

Lemma messagesSubject_controller v c :
  messagesSubject (with_activeAbortController v c) = messagesSubject c.
Proof. reflexivity. Qed.

Lemma messagesSubject_setStatus s c : messagesSubject (setStatus s c) = messagesSubject c.
Proof. reflexivity. Qed.

Lemma messagesSubject_setError e c : messagesSubject (setError e c) = messagesSubject c.
Proof. reflexivity. Qed.

Lemma messagesSubject_release model c :
  messagesSubject (releaseActiveRequest model c) = messagesSubject c.
Proof.
  rewrite releaseActiveRequest_eq. unfold releaseSpec.
  destruct (activeAbortController c) as [k|]; [|apply messagesSubject_closeSubscription].
  destruct (requests c !! k) as [r|];
    [|now rewrite messagesSubject_closeSubscription, messagesSubject_controller].
  destruct (Js.aborted (signal r));
    [now rewrite messagesSubject_closeSubscription, messagesSubject_controller|].
  destruct (isLanguageModel model && negb (closed r)).
  - rewrite messagesSubject_controller, messagesSubject_closeSubscription,
      messagesSubject_controller, messagesSubject_setStatus, messagesSubject_setError,
      messagesSubject_close.
    apply messagesSubject_markAborted.
  - rewrite messagesSubject_closeSubscription, messagesSubject_controller.
    apply messagesSubject_markAborted.
Qed.

Lemma messagesOf_release model c :
  messagesOf (releaseActiveRequest model c) = messagesOf c.
Proof. unfold messagesOf. now rewrite messagesSubject_release. Qed.

Lemma release_frame model c :
  Frame (fun _ => False) c (releaseActiveRequest model c).
Proof. apply Evolves_Frame, release_evolves. Qed.


(* ------------------------------------------------------------------ *)
(** ** [runCompletion], [send] and [retryLast]                          *)
(* ------------------------------------------------------------------ *)



Lemma idCalls_with_calls i n c : idCalls (with_calls i n c) = i.
Proof. reflexivity. Qed.

Lemma nowCalls_with_calls i n c : nowCalls (with_calls i n c) = n.
Proof. reflexivity. Qed.

Lemma with_calls_twice i n i' n' c :
  with_calls i' n' (with_calls i n c) = with_calls i' n' c.
Proof. reflexivity. Qed.

Lemma send_blank model options content meta c :
  String.length (Js.trim content) = 0%nat -> send model options content meta c = c.
Proof. intros H. unfold send. rewrite H. reflexivity. Qed.

Lemma send_eq model options content meta c :
  String.length (Js.trim content) <> 0%nat ->
  send model options content meta c =
  runCompletion model options
    (messagesOf c ++ [sentUserMessage options content meta c])
    (id (sentPlaceholder options c))
    (setMessages
       (messagesOf c ++ [sentUserMessage options content meta c; sentPlaceholder options c])
       (with_calls (S (S (idCalls c))) (S (S (nowCalls c)))
                   (releaseActiveRequest model c))).
Proof.
  intros Hne. unfold send.
  destruct (String.length (Js.trim content) =? 0)%nat eqn:E;
    [apply Nat.eqb_eq in E; contradiction|].
  unfold createMessage. cbv beta iota zeta.
  rewrite !idCalls_with_calls, !nowCalls_with_calls, with_calls_twice.
  destruct (Frame_counters _ _ _ (release_frame model c)) as [Hi Hn].
  unfold sentUserMessage, sentPlaceholder.
  fold (messagesOf (releaseActiveRequest model c)).
  rewrite messagesOf_release, Hi, Hn. reflexivity.
Qed.

Lemma retryLast_none model options c :
  lastRequestMessages c = None -> retryLast model options c = c.
Proof. intros H. unfold retryLast. rewrite H. reflexivity. Qed.

Lemma retryLast_eq model options c l :
  lastRequestMessages c = Some l ->
  retryLast model options c =
  runCompletion model options l (id (retryPlaceholder options c))
    (setMessages (l ++ [retryPlaceholder options c])
       (with_calls (S (idCalls c)) (S (nowCalls c)) (releaseActiveRequest model c))).
Proof.
  intros Hl. unfold retryLast. rewrite Hl. unfold createMessage. cbv beta iota zeta.
  destruct (Frame_counters _ _ _ (release_frame model c)) as [Hi Hn].
  unfold retryPlaceholder. rewrite Hi, Hn. reflexivity.
Qed.







(* ------------------------------------------------------------------ *)
(** ** Shape of an extended message list                                *)
(* ------------------------------------------------------------------ *)


Lemma messagesExtend_last touch ms a ms' :
  messagesExtend touch (ms ++ [a]) ms' ->
  exists pre a',
    ms' = pre ++ [a'] /\ messagesExtend touch ms pre /\ contentExtends touch a a'.
Proof.
  intros H. apply Forall2_app_inv_l in H.
  destruct H as (pre & post & Hpre & Hpost & ->).
  inversion Hpost as [|? a' ? post1 Ha Hnil]; subst.
  inversion Hnil; subst.
  exists pre, a'. auto.
Qed.


(* ------------------------------------------------------------------ *)
(** ** Invariants of the reachable controllers                          *)
(* ------------------------------------------------------------------ *)


Lemma cancel_evolves model c : Evolves (fun _ => False) c (cancel model c).
Proof. unfold cancel. eapply ev_trans; [apply release_evolves | apply ev_status]. Qed.

Lemma push_evolves model options c i :
  match i with Send _ _ | RetryLast | Cancel => False | _ => True end ->
  Evolves (fun _ => True) c (step model options c i).
Proof.
  destruct i as [content meta| | |k n|k n]; intros Hi; try contradiction; simpl.
  - destruct model; [|apply ev_refl]. now apply deliverChunk_evolves.
  - destruct model; [apply ev_refl|]. now apply deliverEvent_evolves.
Qed.

Lemma createChatController_Coherent options : Coherent (createChatController options).
Proof. reflexivity. Qed.


Lemma run_app model options xs ys c :
  run model options (xs ++ ys) c = run model options ys (run model options xs c).
Proof. unfold run. apply fold_left_app. Qed.





(* ------------------------------------------------------------------ *)
(** ** What [releaseActiveRequest] leaves behind                        *)
(* ------------------------------------------------------------------ *)

Lemma active_close k c :
  activeAbortController (close k c) = activeAbortController c /\
  activeSubscription (close k c) = activeSubscription c.
Proof. unfold close. destruct (requests c !! k); split; reflexivity. Qed.

Lemma active_markAborted k c :
  activeAbortController (markAborted k c) = activeAbortController c /\
  activeSubscription (markAborted k c) = activeSubscription c.
Proof. unfold markAborted. destruct (requests c !! k); split; reflexivity. Qed.

Lemma closeSubscription_controller c :
  activeAbortController (closeSubscription c) = activeAbortController c.
Proof.
  unfold closeSubscription. destruct (activeSubscription c); [|reflexivity].
  cbn. apply active_close.
Qed.

Lemma activeSubscription_controller v c :
  activeSubscription (with_activeAbortController v c) = activeSubscription c.
Proof. reflexivity. Qed.

Lemma release_active model c :
  activeAbortController (releaseActiveRequest model c) = None /\
  activeSubscription (releaseActiveRequest model c) = None.
Proof.
  assert (Hc : forall c0,
             activeAbortController (closeSubscription (with_activeAbortController None c0))
             = None /\
             activeSubscription (closeSubscription (with_activeAbortController None c0))
             = None).
  { intros c0. split; [|apply closeSubscription_active].
    now rewrite closeSubscription_controller. }
  rewrite releaseActiveRequest_eq. unfold releaseSpec.
  destruct (activeAbortController c) as [k|] eqn:Hk.
  - destruct (requests c !! k) as [r|]; [|apply Hc].
    destruct (Js.aborted (signal r)); [apply Hc|].
    destruct (isLanguageModel model && negb (closed r)); [|apply Hc].
    split; [reflexivity|].
    rewrite activeSubscription_controller. apply closeSubscription_active.
  - split; [now rewrite closeSubscription_controller | apply closeSubscription_active].
Qed.

Lemma closeSubscription_closes c k r :
  activeSubscription c = Some k ->
  requests c !! k = Some r ->
  exists r', requests (closeSubscription c) !! k = Some r' /\ closed r' = true.
Proof.
  intros Hk Hr. unfold closeSubscription. rewrite Hk. cbn.
  rewrite (lookup_close_eq _ _ _ Hr). eexists. split; reflexivity.
Qed.

(** The request of the active subscription is closed afterwards. *)
Lemma release_closes model c k r :
  activeSubscription c = Some k ->
  requests c !! k = Some r ->
  exists r', requests (releaseActiveRequest model c) !! k = Some r' /\ closed r' = true.
Proof.
  intros Hk Hr. rewrite releaseActiveRequest_eq. unfold releaseSpec.
  destruct (activeAbortController c) as [j|] eqn:Hj;
    [|now apply (closeSubscription_closes c k r)].
  destruct (requests c !! j) as [rj|] eqn:Hrj;
    [|now apply (closeSubscription_closes _ k r)].
  destruct (Js.aborted (signal rj)); [now apply (closeSubscription_closes _ k r)|].
  destruct (isLanguageModel model && negb (closed rj)).
  - set (c3 := setStatus error_ (setError _ (close j (markAborted j c)))).
    assert (H3 : Evolves (fun _ => False) c c3).
    { subst c3. eapply ev_trans; [apply ev_abort|].
      eapply ev_trans; [apply ev_close|].
      eapply ev_trans; [apply ev_error | apply ev_status]. }
    destruct (Frame_requests _ _ _ k r (Evolves_Frame _ _ _ H3) Hr) as (r3 & Hr3 & _).
    assert (Hk3 : activeSubscription (with_activeAbortController None c3) = Some k).
    { subst c3. cbn. rewrite (proj2 (active_close _ _)), (proj2 (active_markAborted _ _)).
      exact Hk. }
    destruct (closeSubscription_closes _ k r3 Hk3 Hr3) as (r' & Hr' & Hc').
    exists r'. split; [exact Hr' | exact Hc'].
  - assert (H3 : Evolves (fun _ => False) c (markAborted j c)) by apply ev_abort.
    destruct (Frame_requests _ _ _ k r (Evolves_Frame _ _ _ H3) Hr) as (r3 & Hr3 & _).
    apply (closeSubscription_closes _ k r3); [|exact Hr3].
    cbn. rewrite (proj2 (active_markAborted _ _)). exact Hk.
Qed.

Lemma Evolves_closed touch c c' k r :
  Evolves touch c c' ->
  requests c !! k = Some r -> closed r = true ->
  exists r', requests c' !! k = Some r' /\ closed r' = true.
Proof.
  intros He Hr Hc.
  destruct (Frame_requests _ _ _ k r (Evolves_Frame _ _ _ He) Hr) as (r' & Hr' & _ & Hc' & _).
  exists r'. auto.
Qed.

Lemma close_length k c : length (requests (close k c)) = length (requests c).
Proof. unfold close. destruct (requests c !! k); [cbn; apply length_insert | reflexivity]. Qed.

Lemma markAborted_length k c : length (requests (markAborted k c)) = length (requests c).
Proof.
  unfold markAborted. destruct (requests c !! k); [cbn; apply length_insert | reflexivity].
Qed.

Lemma closeSubscription_length c :
  length (requests (closeSubscription c)) = length (requests c).
Proof.
  unfold closeSubscription. destruct (activeSubscription c); [|reflexivity].
  cbn. apply close_length.
Qed.

Lemma requests_controller v c : requests (with_activeAbortController v c) = requests c.
Proof. reflexivity. Qed.

Lemma requests_setStatus s c : requests (setStatus s c) = requests c.
Proof. reflexivity. Qed.

Lemma requests_setError e c : requests (setError e c) = requests c.
Proof. reflexivity. Qed.

Lemma release_length model c :
  length (requests (releaseActiveRequest model c)) = length (requests c).
Proof.
  rewrite releaseActiveRequest_eq. unfold releaseSpec.
  destruct (activeAbortController c) as [k|]; [|apply closeSubscription_length].
  destruct (requests c !! k) as [r|];
    [|now rewrite closeSubscription_length, requests_controller].
  destruct (Js.aborted (signal r));
    [now rewrite closeSubscription_length, requests_controller|].
  destruct (isLanguageModel model && negb (closed r)).
  - rewrite requests_controller, closeSubscription_length, requests_controller,
      requests_setStatus, requests_setError, close_length.
    apply markAborted_length.
  - rewrite closeSubscription_length, requests_controller. apply markAborted_length.
Qed.

(** After [releaseActiveRequest] from a state between two inputs, nothing
    is open and nothing is active. *)
Lemma release_allClosed model c :
  TopInv c ->
  allClosed (releaseActiveRequest model c).
Proof.
  intros [Hopen _] k r' Hr'.
  assert (Hlt : (k < length (requests c))%nat).
  { rewrite <- (release_length model c). eapply lookup_lt_Some; eassumption. }
  destruct (lookup_lt_is_Some_2 _ _ Hlt) as [r Hr].
  destruct (closed r) eqn:Hc.
  - destruct (Evolves_closed _ _ _ k r (release_evolves (fun _ => False) model c) Hr Hc)
      as (r2 & Hr2 & Hc2). congruence.
  - destruct (release_closes model c k r (Hopen k r Hr Hc) Hr) as (r2 & Hr2 & Hc2). congruence.
Qed.

(* ------------------------------------------------------------------ *)
(** ** The open subscription is the active one                          *)
(* ------------------------------------------------------------------ *)

Lemma sameStore_setStatus s c : sameStore c (setStatus s c).
Proof. repeat split. Qed.

Lemma sameStore_setError e c : sameStore c (setError e c).
Proof. repeat split. Qed.

Lemma sameStore_setMessages ms c : sameStore c (setMessages ms c).
Proof. repeat split. Qed.

Lemma sameStore_appendDelta aid delta c : sameStore c (appendDelta aid delta c).
Proof. unfold appendDelta. destruct (0 <? String.length delta)%nat; repeat split. Qed.

Lemma TopInv_sameStore c c' : sameStore c c' -> TopInv c -> TopInv c'.
Proof. intros (Hr & Ha & Hs) [H1 H2]. unfold TopInv. rewrite Hr, Ha, Hs. auto. Qed.

Lemma MidInv_sameStore k c c' : sameStore c c' -> MidInv k c -> MidInv k c'.
Proof. intros (Hr & Ha & Hs) (H1 & H2 & H3). unfold MidInv. rewrite Hr, Ha, Hs. auto. Qed.

Lemma allClosed_TopInv c :
  allClosed c -> activeAbortController c = None -> TopInv c.
Proof.
  intros Hall Ha. split.
  - intros k r Hr Hc. rewrite (Hall k r Hr) in Hc. discriminate.
  - intros j Hj. congruence.
Qed.

Lemma release_TopInv model c :
  TopInv c ->
  allClosed (releaseActiveRequest model c) /\ TopInv (releaseActiveRequest model c).
Proof.
  intros H. pose proof (release_allClosed model c H) as Hall.
  split; [exact Hall|]. apply allClosed_TopInv; [exact Hall | apply release_active].
Qed.

Lemma finishRequest_TopInv model c : TopInv c -> TopInv (finishRequest model c).
Proof.
  intros H. unfold finishRequest.
  eapply TopInv_sameStore; [apply sameStore_setStatus | now apply release_TopInv].
Qed.

Lemma close_TopInv k c : TopInv c -> TopInv (close k c).
Proof.
  intros [H1 H2]. split.
  - intros j r' Hr' Hc'. rewrite (proj2 (active_close k c)).
    destruct (decide (j = k)) as [->|Hne].
    + destruct (requests c !! k) as [r|] eqn:Hr.
      * rewrite (lookup_close_eq _ _ _ Hr) in Hr'. inversion Hr'; subst. discriminate.
      * rewrite (close_missing _ _ Hr) in Hr'. eauto.
    + rewrite (lookup_close_ne _ _ _ Hne) in Hr'. eauto.
  - intros j. rewrite (proj1 (active_close k c)), (proj2 (active_close k c)). auto.
Qed.

Lemma errorCallback_TopInv model err c :
  TopInv c -> TopInv (errorCallback (releaseActiveRequest model) err c).
Proof.
  intros H. unfold errorCallback. apply release_TopInv.
  eapply TopInv_sameStore; [apply sameStore_setStatus|].
  eapply TopInv_sameStore; [apply sameStore_setError | exact H].
Qed.

Lemma deliverChunk_TopInv model k n c : TopInv c -> TopInv (deliverChunk model k n c).
Proof.
  intros H. unfold deliverChunk.
  destruct (requests c !! k) as [r|]; [|exact H].
  destruct (closed r); [exact H|].
  assert (Ha : forall aid delta, TopInv (appendDelta aid delta c)).
  { intros. eapply TopInv_sameStore; [apply sameStore_appendDelta | exact H]. }
  destruct n as [chunk|err|].
  - destruct (chunkIsDone chunk); [apply finishRequest_TopInv|]; apply Ha.
  - apply errorCallback_TopInv, close_TopInv, H.
  - apply finishRequest_TopInv, close_TopInv, H.
Qed.

Lemma deliverDelta_TopInv model k n c : TopInv c -> TopInv (deliverDelta model k n c).
Proof.
  intros H. unfold deliverDelta.
  destruct (requests c !! k) as [r|]; [|exact H].
  destruct (closed r); [exact H|].
  destruct n as [delta|err|].
  - eapply TopInv_sameStore; [apply sameStore_appendDelta | exact H].
  - apply errorCallback_TopInv, close_TopInv, H.
  - apply finishRequest_TopInv, close_TopInv, H.
Qed.

Lemma deliverEvent_TopInv model k n c : TopInv c -> TopInv (deliverEvent model k n c).
Proof.
  intros H. unfold deliverEvent.
  destruct (LM.project StreamText.textDeltaOf n); [now apply deliverDelta_TopInv | exact H].
Qed.

(** While a request is being subscribed. *)
Lemma open_before touch c c' j r' :
  Evolves touch c c' ->
  length (requests c') = length (requests c) ->
  requests c' !! j = Some r' -> closed r' = false ->
  exists r, requests c !! j = Some r /\ closed r = false.
Proof.
  intros He Hlen Hr' Hc'.
  assert (Hlt : (j < length (requests c))%nat).
  { rewrite <- Hlen. eapply lookup_lt_Some; eassumption. }
  destruct (lookup_lt_is_Some_2 _ _ Hlt) as [r Hr].
  exists r. split; [exact Hr|].
  destruct (closed r) eqn:Hc; [|reflexivity].
  destruct (Evolves_closed _ _ _ j r He Hr Hc) as (r2 & Hr2 & Hc2). congruence.
Qed.

Lemma release_MidInv model k c : MidInv k c -> MidInv k (releaseActiveRequest model c).
Proof.
  intros (H1 & H2 & H3). split; [|split].
  - intros j r' Hr' Hc'.
    destruct (open_before _ _ _ j r' (release_evolves (fun _ => False) model c)
                (release_length model c) Hr' Hc') as (r & Hr & Hc).
    eauto.
  - apply release_active.
  - intros j Hj. rewrite (proj1 (release_active model c)) in Hj. discriminate.
Qed.

Lemma close_MidInv k j c : MidInv k c -> MidInv k (close j c).
Proof.
  intros (H1 & H2 & H3). split; [|split].
  - intros i r' Hr' Hc'.
    destruct (open_before _ _ _ i r' (ev_close (fun _ => False) c j)
                (close_length j c) Hr' Hc') as (r & Hr & Hc).
    eauto.
  - now rewrite (proj2 (active_close j c)).
  - intros i. rewrite (proj1 (active_close j c)). auto.
Qed.

Lemma finishRequest_MidInv model k c : MidInv k c -> MidInv k (finishRequest model c).
Proof.
  intros H. unfold finishRequest.
  eapply MidInv_sameStore; [apply sameStore_setStatus | now apply release_MidInv].
Qed.

Lemma errorCallback_MidInv model k err c :
  MidInv k c -> MidInv k (errorCallback (releaseActiveRequest model) err c).
Proof.
  intros H. unfold errorCallback. apply release_MidInv.
  eapply MidInv_sameStore; [apply sameStore_setStatus|].
  eapply MidInv_sameStore; [apply sameStore_setError | exact H].
Qed.

Lemma deliverChunk_MidInv model k j n c : MidInv k c -> MidInv k (deliverChunk model j n c).
Proof.
  intros H. unfold deliverChunk.
  destruct (requests c !! j) as [r|]; [|exact H].
  destruct (closed r); [exact H|].
  assert (Ha : forall aid delta, MidInv k (appendDelta aid delta c)).
  { intros. eapply MidInv_sameStore; [apply sameStore_appendDelta | exact H]. }
  destruct n as [chunk|err|].
  - destruct (chunkIsDone chunk); [apply finishRequest_MidInv|]; apply Ha.
  - apply errorCallback_MidInv, close_MidInv, H.
  - apply finishRequest_MidInv, close_MidInv, H.
Qed.

Lemma deliverDelta_MidInv model k j n c : MidInv k c -> MidInv k (deliverDelta model j n c).
Proof.
  intros H. unfold deliverDelta.
  destruct (requests c !! j) as [r|]; [|exact H].
  destruct (closed r); [exact H|].
  destruct n as [delta|err|].
  - eapply MidInv_sameStore; [apply sameStore_appendDelta | exact H].
  - apply errorCallback_MidInv, close_MidInv, H.
  - apply finishRequest_MidInv, close_MidInv, H.
Qed.

Lemma fold_MidInv {N} (deliver : Controller -> N -> Controller) k (ns : list N) :
  (forall c n, MidInv k c -> MidInv k (deliver c n)) ->
  forall c, MidInv k c -> MidInv k (fold_left deliver ns c).
Proof.
  intros Hd. induction ns as [|n ns IH]; intros c Hc; simpl; [exact Hc|].
  apply IH, Hd, Hc.
Qed.

Lemma runCompletion_subscribe_TopInv model options base aid c :
  allClosed c -> activeSubscription c = None ->
  TopInv (runCompletion_subscribe model options base aid c).
Proof.
  intros Hall Hnone. unfold runCompletion_subscribe.
  set (k := length (requests c)).
  set (c1 := with_activeAbortController (Some k) _).
  assert (Hmid : MidInv k c1 -> forall c2, MidInv k c2 ->
                 TopInv (with_activeSubscription (Some k) c2)).
  { intros _ c2 (H1 & H2 & H3). split; cbn.
    - intros j r Hr Hc. f_equal. symmetry. eauto.
    - intros j Hj. f_equal. symmetry. eauto. }
  assert (H1 : MidInv k c1).
  { subst c1. split; [|split]; cbn.
    - intros j r Hr Hc.
      destruct (decide (j < length (requests c))%nat) as [Hlt|Hge].
      + rewrite lookup_app_l in Hr by exact Hlt.
        rewrite (Hall j r Hr) in Hc. discriminate.
      + apply lookup_lt_Some in Hr. rewrite length_app in Hr. simpl in Hr. subst k. lia.
    - exact Hnone.
    - intros j Hj. congruence. }
  apply (Hmid H1).
  destruct model as [adapter|languageModel].
  - apply fold_MidInv; [|exact H1]. intros c0 n. apply deliverChunk_MidInv.
  - apply fold_MidInv; [|exact H1]. intros c0 n. apply deliverDelta_MidInv.
Qed.

Lemma allClosed_sameStore c c' : sameStore c c' -> allClosed c -> allClosed c'.
Proof. intros (Hr & _) H. unfold allClosed. rewrite Hr. exact H. Qed.

Lemma runCompletion_TopInv model options base aid c :
  TopInv c -> TopInv (runCompletion model options base aid c).
Proof.
  intros H. unfold runCompletion, runCompletion_reset.
  assert (H0 : TopInv (with_lastRequestMessages (Some base) c)) by exact H.
  destruct (release_TopInv model _ H0) as [Hall _].
  apply runCompletion_subscribe_TopInv.
  - eapply allClosed_sameStore; [apply sameStore_setError|].
    eapply allClosed_sameStore; [apply sameStore_setStatus | exact Hall].
  - cbn. apply release_active.
Qed.

Lemma send_TopInv model options content meta c :
  TopInv c -> TopInv (send model options content meta c).
Proof.
  intros H. destruct (Nat.eq_dec (String.length (Js.trim content)) 0) as [Hz|Hnz].
  - now rewrite send_blank.
  - rewrite (send_eq _ _ _ _ _ Hnz). apply runCompletion_TopInv.
    eapply TopInv_sameStore; [apply sameStore_setMessages|].
    destruct (release_TopInv model c H) as [_ Ht]. exact Ht.
Qed.

Lemma retryLast_TopInv model options c :
  TopInv c -> TopInv (retryLast model options c).
Proof.
  intros H. destruct (lastRequestMessages c) as [l|] eqn:Hl.
  - rewrite (retryLast_eq _ _ _ _ Hl). apply runCompletion_TopInv.
    eapply TopInv_sameStore; [apply sameStore_setMessages|].
    destruct (release_TopInv model c H) as [_ Ht]. exact Ht.
  - now rewrite retryLast_none.
Qed.

Lemma cancel_TopInv model c : TopInv c -> allClosed (cancel model c) /\ TopInv (cancel model c).
Proof.
  intros H. destruct (release_TopInv model c H) as [Hall Ht]. unfold cancel. split.
  - eapply allClosed_sameStore; [apply sameStore_setStatus | exact Hall].
  - eapply TopInv_sameStore; [apply sameStore_setStatus | exact Ht].
Qed.

Lemma step_TopInv model options c i : TopInv c -> TopInv (step model options c i).
Proof.
  intros H. destruct i as [content meta| | |k n|k n]; simpl.
  - now apply send_TopInv.
  - now apply retryLast_TopInv.
  - now apply cancel_TopInv.
  - destruct model; [now apply deliverChunk_TopInv | exact H].
  - destruct model; [exact H | now apply deliverEvent_TopInv].
Qed.

Lemma run_TopInv model options inputs :
  TopInv (run model options inputs (createChatController options)).
Proof.
  induction inputs as [|i inputs IH] using rev_ind.
  - split; [intros k r Hr; destruct k; discriminate | intros j Hj; discriminate].
  - rewrite run_app. simpl. now apply step_TopInv.
Qed.

(* ------------------------------------------------------------------ *)
(** ** A started completion leaves a request behind                     *)
(* ------------------------------------------------------------------ *)

Lemma Evolves_started touch c c' :
  Evolves touch c c' -> requests c <> [] -> requests c' <> [].
Proof.
  intros He Hne. destruct (requests c) as [|r rs] eqn:Hr; [contradiction|].
  assert (H0 : requests c !! 0%nat = Some r) by (rewrite Hr; reflexivity).
  destruct (Frame_requests _ _ _ 0%nat r (Evolves_Frame _ _ _ He) H0) as (r' & Hr' & _).
  intros Hnil. rewrite Hnil in Hr'. discriminate.
Qed.

Lemma runCompletion_subscribe_started model options base aid c :
  requests (runCompletion_subscribe model options base aid c) <> [].
Proof.
  unfold runCompletion_subscribe.
  set (k := length (requests c)).
  set (new := mkRequest (Js.mkSignal false None) false aid).
  set (c1 := with_activeAbortController (Some k) (with_requests (requests c ++ [new]) c)).
  assert (Hk : requests c1 !! k = Some new).
  { subst c1 k. cbn. apply list_lookup_middle. reflexivity. }
  assert (Hne : requests c1 <> []).
  { intros Hnil. rewrite Hnil in Hk. destruct k; discriminate. }
  cbn [requests with_activeSubscription].
  destruct model as [adapter|languageModel].
  - refine (Evolves_started (eq aid) c1 _ _ Hne).
    apply (fold_evolves (eq aid) (fun c n => deliverChunk (Adapter adapter) k n c) k)
      with (r := new); [|exact Hk|reflexivity].
    intros c0 n Hc0. now apply deliverChunk_evolves.
  - refine (Evolves_started (eq aid) c1 _ _ Hne).
    apply (fold_evolves (eq aid) (fun c n => deliverDelta (Rich languageModel) k n c) k)
      with (r := new); [|exact Hk|reflexivity].
    intros c0 n Hc0. now apply deliverDelta_evolves.
Qed.

Lemma Evolves_startedInv touch c c' : Evolves touch c c' -> startedInv c -> startedInv c'.
Proof.
  intros He Hi Hnil. rewrite (Frame_retry _ _ _ (Evolves_Frame _ _ _ He)).
  apply Hi. destruct (requests c) as [|r rs] eqn:Hr; [reflexivity|].
  exfalso. apply (Evolves_started _ _ _ He); [rewrite Hr; discriminate | exact Hnil].
Qed.

Lemma step_startedInv model options c i : startedInv c -> startedInv (step model options c i).
Proof.
  intros H. destruct i as [content meta| | |k n|k n].
  - simpl. destruct (Nat.eq_dec (String.length (Js.trim content)) 0) as [Hz|Hnz].
    + now rewrite send_blank.
    + rewrite (send_eq _ _ _ _ _ Hnz). intros Hnil. exfalso.
      revert Hnil. apply runCompletion_subscribe_started.
  - simpl. destruct (lastRequestMessages c) as [l|] eqn:Hl.
    + rewrite (retryLast_eq _ _ _ _ Hl). intros Hnil. exfalso.
      revert Hnil. apply runCompletion_subscribe_started.
    + now rewrite retryLast_none.
  - simpl. eapply Evolves_startedInv; [apply cancel_evolves | exact H].
  - eapply Evolves_startedInv; [apply (push_evolves model options c (AdapterPush k n) I) | exact H].
  - eapply Evolves_startedInv; [apply (push_evolves model options c (ModelPush k n) I) | exact H].
Qed.

Lemma run_startedInv model options inputs :
  startedInv (run model options inputs (createChatController options)).
Proof.
  induction inputs as [|i inputs IH] using rev_ind; [intros _; reflexivity|].
  rewrite run_app. simpl. now apply step_startedInv.
Qed.

(** Between two inputs an open request is in flight. *)
Lemma TopInv_inFlight c k r :
  TopInv c -> requests c !! k = Some r -> closed r = false -> inFlight k c.
Proof.
  intros [H1 H2] Hr Hc. split; [eauto|].
  intros j Hj. pose proof (H1 k r Hr Hc) as Hk. pose proof (H2 j Hj) as Hj'. congruence.
Qed.

Lemma MidInv_inFlight c k r :
  MidInv k c -> requests c !! k = Some r -> closed r = false -> inFlight k c.
Proof. intros (H1 & H2 & H3) Hr Hc. split; eauto. Qed.

(* ------------------------------------------------------------------ *)
(** ** When [releaseActiveRequest] emits nothing                        *)
(* ------------------------------------------------------------------ *)

Lemma sameSubjects_refl c : sameSubjects c c.
Proof. repeat split. Qed.

Lemma sameSubjects_trans a b c : sameSubjects a b -> sameSubjects b c -> sameSubjects a c.
Proof. intros (?&?&?&?) (?&?&?&?). repeat split; congruence. Qed.

Lemma sameSubjects_close k c : sameSubjects c (close k c).
Proof. unfold close. destruct (requests c !! k); repeat split. Qed.

Lemma sameSubjects_markAborted k c : sameSubjects c (markAborted k c).
Proof. unfold markAborted. destruct (requests c !! k); repeat split. Qed.

Lemma sameSubjects_closeSubscription c : sameSubjects c (closeSubscription c).
Proof.
  unfold closeSubscription. destruct (activeSubscription c) as [k|]; [|apply sameSubjects_refl].
  destruct (sameSubjects_close k c) as (?&?&?&?). repeat split; cbn; assumption.
Qed.

Lemma release_quiet model c :
  quietAbort model c -> sameSubjects c (releaseActiveRequest model c).
Proof.
  intros Hq. rewrite releaseActiveRequest_eq. unfold releaseSpec.
  destruct (activeAbortController c) as [k|] eqn:Hk; [|apply sameSubjects_closeSubscription].
  destruct (requests c !! k) as [r|] eqn:Hr.
  - destruct (Js.aborted (signal r)) eqn:Ha.
    + apply (sameSubjects_trans _ (with_activeAbortController None c));
        [repeat split | apply sameSubjects_closeSubscription].
    + destruct (Hq k r Hk Hr) as [Hab|Hl]; [congruence|]. rewrite Hl.
      apply (sameSubjects_trans _ (with_activeAbortController None (markAborted k c)));
        [|apply sameSubjects_closeSubscription].
      destruct (sameSubjects_markAborted k c) as (?&?&?&?). repeat split; cbn; assumption.
  - apply (sameSubjects_trans _ (with_activeAbortController None c));
      [repeat split | apply sameSubjects_closeSubscription].
Qed.

Lemma quietAbort_adapter adapter c : quietAbort (Adapter adapter) c.
Proof. intros j r _ _. right. reflexivity. Qed.




Lemma deliverFailure_closed model k err c r :
  requests c !! k = Some r -> closed r = true ->
  deliverFailure model k err c = c.
Proof.
  intros Hr Hc. unfold deliverFailure, deliverEvent, deliverDelta, deliverChunk.
  destruct model; cbn [LM.project]; rewrite Hr, Hc; reflexivity.
Qed.


(* ------------------------------------------------------------------ *)
(** ** Fragments are appended in order                                  *)
(* ------------------------------------------------------------------ *)

Lemma appendTo_nil aid m : appendTo aid EmptyString m = m.
Proof.
  unfold appendTo. destruct (String.eqb (id m) aid); [|reflexivity].
  rewrite append_nil_r. now destruct m.
Qed.


Lemma map_appendTo_nil aid ms : map (appendTo aid EmptyString) ms = ms.
Proof. induction ms as [|m ms IH]; simpl; [reflexivity | now rewrite appendTo_nil, IH]. Qed.


Lemma length_zero_nil (s : string) : (0 <? String.length s)%nat = false -> s = EmptyString.
Proof. destruct s; [reflexivity | discriminate]. Qed.




(** One fragment: the messages, and what the messages subject emits. *)
Lemma appendDelta_messages aid fragment c :
  messagesOf (appendDelta aid fragment c) = map (appendTo aid fragment) (messagesOf c) /\
  Rx.emissions (messagesSubject (appendDelta aid fragment c))
  = (if (0 <? String.length fragment)%nat
     then [map (appendTo aid fragment) (messagesOf c)] else [])
    ++ Rx.emissions (messagesSubject c).
Proof.
  unfold appendDelta. destruct (0 <? String.length fragment)%nat eqn:E.
  - split; reflexivity.
  - rewrite (length_zero_nil _ E), map_appendTo_nil. split; reflexivity.
Qed.




(* ------------------------------------------------------------------ *)
(** ** [streamText] and [generateText]                                  *)
(* ------------------------------------------------------------------ *)





(** One subscription to [stream$]. *)
Lemma stream_run o h :
  StreamText.stream_ (snd (StreamText.streamText o)) h =
  match StreamText.signal o with
  | Some s =>
      if Js.aborted (h s)
      then {| LM.effects := []; LM.delivered := [Rx.Error (StreamText.abortError (h s))] |}
      else
        {| LM.effects :=
             LM.SubscribeSource ::
             concat (map (StreamText.tapOnFinish o)
                       (LM.values
                          (Rx.untilTerminal
                             (LM.doStream (StreamText.model o) (StreamText.buildRequest o)))));
           LM.delivered :=
             Rx.untilTerminal (LM.doStream (StreamText.model o) (StreamText.buildRequest o)) |}
  | None =>
      {| LM.effects :=
           LM.SubscribeSource ::
           concat (map (StreamText.tapOnFinish o)
                     (LM.values
                        (Rx.untilTerminal
                           (LM.doStream (StreamText.model o) (StreamText.buildRequest o)))));
         LM.delivered :=
           Rx.untilTerminal (LM.doStream (StreamText.model o) (StreamText.buildRequest o)) |}
  end.
Proof.
  unfold StreamText.streamText, LM.share, LM.tap, StreamText.applyAbortSignal. simpl.
  destruct (StreamText.signal o) as [s|]; [|reflexivity].
  destruct (Js.aborted (h s)); reflexivity.
Qed.



(* ------------------------------------------------------------------ *)
(** ** Cancellation and the [done] flag after the subscription          *)
(* ------------------------------------------------------------------ *)

Lemma deliverChunk_allClosed model k n c : allClosed c -> deliverChunk model k n c = c.
Proof.
  intros H. unfold deliverChunk. destruct (requests c !! k) as [r|] eqn:Hr; [|reflexivity].
  now rewrite (H k r Hr).
Qed.

Lemma deliverEvent_allClosed model k n c : allClosed c -> deliverEvent model k n c = c.
Proof.
  intros H. unfold deliverEvent, deliverDelta.
  destruct (LM.project StreamText.textDeltaOf n); [|reflexivity].
  destruct (requests c !! k) as [r|] eqn:Hr; [|reflexivity].
  now rewrite (H k r Hr).
Qed.

(** On the low-level adapter path [cancel()] does what the specification
    says: status [cancelled], the error as it was, every subscription
    closed, so that no later notification changes anything. *)
Lemma cancel_on_adapter_path adapter options c :
  TopInv c ->
  getState (cancel (Adapter adapter) c)
  = {| messages := messagesOf c; status := cancelled; error := errorOf c |} /\
  allClosed (cancel (Adapter adapter) c) /\
  (forall k n,
      step (Adapter adapter) options (cancel (Adapter adapter) c) (AdapterPush k n)
      = cancel (Adapter adapter) c).
Proof.
  intros H. destruct (cancel_TopInv (Adapter adapter) c H) as [Hall _].
  split; [|split; [exact Hall|]].
  - unfold cancel, getState.
    cbn [setStatus emitState with_statusSubject with_stateSubject stateSubject messagesSubject
           errorSubject Rx.next Rx.getValue Rx.value].
    destruct (release_quiet (Adapter adapter) c (quietAbort_adapter adapter c))
      as (Hm & _ & He & _).
    unfold messagesOf, errorOf. now rewrite Hm, He.
  - intros k n. simpl. now apply deliverChunk_allClosed.
Qed.

(** A chunk flagged [done] that arrives after [subscribe] returned is
    appended, and then the controller is [idle] with every subscription
    closed. *)
Lemma done_chunk_after_subscription adapter c k r text :
  TopInv c ->
  requests c !! k = Some r -> closed r = false ->
  messages (getState (deliverChunk (Adapter adapter) k
                                   (Rx.Next (ChunkObject text (Some true))) c))
  = map (appendTo (assistantMessageId r) text) (messagesOf c) /\
  status (getState (deliverChunk (Adapter adapter) k
                                 (Rx.Next (ChunkObject text (Some true))) c))
  = idle /\
  allClosed (deliverChunk (Adapter adapter) k (Rx.Next (ChunkObject text (Some true))) c).
Proof.
  intros H Hr Hc. unfold deliverChunk. rewrite Hr, Hc. cbn [chunkIsDone chunkToText].
  set (c1 := appendDelta (assistantMessageId r) text c).
  assert (H1 : TopInv c1).
  { eapply TopInv_sameStore; [apply sameStore_appendDelta | exact H]. }
  split; [|split].
  - unfold finishRequest, getState.
    cbn [setStatus emitState with_statusSubject with_stateSubject stateSubject messagesSubject
           Rx.next Rx.getValue Rx.value messages].
    rewrite messagesSubject_release. apply appendDelta_messages.
  - reflexivity.
  - unfold finishRequest.
    eapply allClosed_sameStore; [apply sameStore_setStatus|].
    now apply release_allClosed.
Qed.

(** The scenario of the specification, the chunks arriving after the
    subscription: the content is ["Hello World"], the status [idle], and
    a later chunk is ignored. *)
Lemma done_scenario_after_subscription :
  map content
      (messages
         (getState
            (run pendingAdapter exampleOptions
                 [Send "test" None;
                  AdapterPush 0 (Rx.Next (ChunkObject "Hello" (Some false)));
                  AdapterPush 0 (Rx.Next (ChunkObject " World" (Some true)));
                  AdapterPush 0 (Rx.Next (ChunkString "!"))]
                 (createChatController exampleOptions))))
  = ["test"; "Hello World"] /\
  status
    (getState
       (run pendingAdapter exampleOptions
            [Send "test" None;
             AdapterPush 0 (Rx.Next (ChunkObject "Hello" (Some false)));
             AdapterPush 0 (Rx.Next (ChunkObject " World" (Some true)));
             AdapterPush 0 (Rx.Next (ChunkString "!"))]
            (createChatController exampleOptions)))
  = idle.
Proof. split; vm_compute; reflexivity. Qed.

(** Every open request of a reachable controller is in flight, so a
    failure of its sequence is surfaced as C9 says. *)
Lemma open_request_in_flight model options inputs k r :
  requests (run model options inputs (createChatController options)) !! k = Some r ->
  closed r = false ->
  inFlight k (run model options inputs (createChatController options)).
Proof. intros Hr Hc. eapply TopInv_inFlight; [apply run_TopInv | exact Hr | exact Hc]. Qed.

(** After [cancel()], on either path, every subscription is closed and no
    notification changes the controller any more. *)
Lemma cancel_closes_everything model options inputs i :
  match i with Send _ _ | RetryLast | Cancel => False | _ => True end ->
  step model options
       (cancel model (run model options inputs (createChatController options))) i
  = cancel model (run model options inputs (createChatController options)).
Proof.
  intros Hi.
  destruct (cancel_TopInv model _ (run_TopInv model options inputs)) as [Hall _].
  destruct i as [content meta| | |k n|k n]; try contradiction; simpl.
  - destruct model; [now apply deliverChunk_allClosed | reflexivity].
  - destruct model; [reflexivity | now apply deliverEvent_allClosed].
Qed.

(* ------------------------------------------------------------------ *)
(** ** The claims                                                       *)
(* ------------------------------------------------------------------ *)

(** C8. [send] with content that trims to the empty string, and
    [retryLast] when no completion has been started, return the controller
    they were given: no subject emits, and messages, status, error and
    every private variable are as before. In a controller reached by any
    inputs in which no request was ever created, [retryLast] is such a
    no-op; called first, it leaves the initial messages and status
    [idle]. *)
Theorem send_blank_and_retry_without_request_are_noops :
  forall (model : Model) (options : CreateChatControllerOptions),
    (forall content meta c,
        Js.trim content = EmptyString -> send model options content meta c = c) /\
    (forall c, lastRequestMessages c = None -> retryLast model options c = c) /\
    (forall inputs,
        requests (run model options inputs (createChatController options)) = [] ->
        retryLast model options (run model options inputs (createChatController options))
        = run model options inputs (createChatController options)) /\
    getState (retryLast model options (createChatController options))
    = {| messages := initialMessages options; status := idle; error := None |}.
Proof.
  intros model options. split; [|split; [|split]].
  - intros content meta c H. apply send_blank. now rewrite H.
  - intros c H. now apply retryLast_none.
  - intros inputs H. apply retryLast_none. now apply run_startedInv.
  - reflexivity.
Qed.







(** C3, as amended. When the signal of the request is already aborted at
    the time of the subscription, each of the three sequences of
    [streamText] and the sequence of [generateText] delivers the abort
    error and nothing else, and the sequence the model returned is never
    subscribed; [doStream] and [doGenerate] themselves are called once,
    when [streamText] and [generateText] are called, to obtain that
    sequence. *)
Theorem preaborted_signal_fails_without_subscribing :
  forall (o : StreamText.StreamTextOptions) (g : GenerateText.GenerateTextOptions)
         (h : Js.Heap) (s s' : Js.SignalRef),
    StreamText.signal o = Some s -> Js.aborted (h s) = true ->
    GenerateText.signal g = Some s' -> Js.aborted (h s') = true ->
    fst (StreamText.streamText o) = [LM.CallDoStream (StreamText.buildRequest o)] /\
    StreamText.stream_ (snd (StreamText.streamText o)) h
    = {| LM.effects := []; LM.delivered := [Rx.Error (StreamText.abortError (h s))] |} /\
    StreamText.delta_ (snd (StreamText.streamText o)) h
    = {| LM.effects := []; LM.delivered := [Rx.Error (StreamText.abortError (h s))] |} /\
    StreamText.text_ (snd (StreamText.streamText o)) h
    = {| LM.effects := []; LM.delivered := [Rx.Error (StreamText.abortError (h s))] |} /\
    fst (GenerateText.generateText g) = [LM.CallDoGenerate (GenerateText.buildRequest g)] /\
    snd (GenerateText.generateText g) h
    = {| LM.effects := []; LM.delivered := [Rx.Error (GenerateText.abortError (h s'))] |}.
Proof.
  intros o g h s s' Hs Ha Hs' Ha'.
  assert (Hstream : StreamText.stream_ (snd (StreamText.streamText o)) h
                    = {| LM.effects := [];
                         LM.delivered := [Rx.Error (StreamText.abortError (h s))] |}).
  { rewrite stream_run, Hs, Ha. reflexivity. }
  split; [reflexivity|]. split; [exact Hstream|]. split; [|split; [|split]].
  - change (StreamText.delta_ (snd (StreamText.streamText o)))
      with (LM.filterMap StreamText.textDeltaOf
              (StreamText.stream_ (snd (StreamText.streamText o)))).
    unfold LM.filterMap. rewrite Hstream. reflexivity.
  - change (StreamText.text_ (snd (StreamText.streamText o)))
      with (LM.scan (fun accumulated delta => accumulated +:+ delta) EmptyString
              (LM.filterMap StreamText.textDeltaOf
                 (StreamText.stream_ (snd (StreamText.streamText o))))).
    unfold LM.scan, LM.filterMap. rewrite Hstream. reflexivity.
  - reflexivity.
  - unfold GenerateText.generateText, GenerateText.applyAbortSignal. cbn [snd].
    rewrite Hs', Ha'. reflexivity.
Qed.

(* ------------------------------------------------------------------ *)
(** ** Counterexamples to the claims as stated                          *)
(* ------------------------------------------------------------------ *)








(** C3 as stated fails: [streamText] calls [doStream] when it is called,
    whatever the state of the signal. *)
Lemma preaborted_streamText_calls_doStream : ~ preabortedNeverInvokes.
Proof.
  intros H.
  apply (H (streamOptionsOf exampleLanguageModel (Some 0%nat)) abortedHeap 0%nat);
    [reflexivity | reflexivity |].
  eexists. split; [left; reflexivity | exact I].
Qed.


(** With one finish event in the source, a second subscription made
    after the first one completed runs the source again, and [onFinish]
    with it. *)
Lemma resubscription_calls_onFinish_again :
  onFinishCalls
    (LM.effects
       (StreamText.stream_
          (snd (StreamText.streamText (streamOptionsOf exampleLanguageModel None)))
          freshHeap)
     ++ LM.effects
          (StreamText.delta_
             (snd (StreamText.streamText (streamOptionsOf exampleLanguageModel None)))
             freshHeap))
  = [exampleResult; exampleResult].
Proof. vm_compute. reflexivity. Qed.


(* ------------------------------------------------------------------ *)
(** ** Where the code departs from the claims                           *)
(* ------------------------------------------------------------------ *)

Lemma pendingOnLanguageModel_inFlight : inFlight 0 pendingOnLanguageModel.
Proof.
  assert (Hr : requests pendingOnLanguageModel !! 0%nat
               = Some (mkRequest (Js.mkSignal false None) false "1"))
    by (vm_compute; reflexivity).
  assert (Ha : activeAbortController pendingOnLanguageModel = Some 0%nat)
    by (vm_compute; reflexivity).
  split.
  - eexists. split; [exact Hr | reflexivity].
  - intros j Hj. rewrite Ha in Hj. now inversion Hj.
Qed.

(** C2. On the [streamText] path [cancel()] aborts the signal before it
    unsubscribes: the listener of [applyAbortSignal] fails the sequence,
    the [error] callback of the controller runs, and the abort error is
    left in the error field under status [cancelled]. *)
Theorem cancel_on_streamText_path_sets_error :
  inFlight 0 pendingOnLanguageModel /\
  error (getState pendingOnLanguageModel) = None /\
  status (getState (cancel pendingLanguageModel pendingOnLanguageModel)) = cancelled /\
  error (getState (cancel pendingLanguageModel pendingOnLanguageModel))
  = Some (Js.DOMException "This operation was aborted" "AbortError").
Proof.
  split; [apply pendingOnLanguageModel_inFlight|].
  split; [|split]; vm_compute; reflexivity.
Qed.

(** C6. A chunk flagged [done] that is pushed while the sequence is being
    subscribed finds [activeSubscription] not assigned yet: the content is
    appended and the status becomes [idle], but the subscription stays
    open, and what the adapter pushes afterwards is appended under status
    [streaming]. *)
Theorem done_chunk_at_subscription_keeps_subscription :
  map content (messages (getState afterDoneChunk)) = ["test"; "Hello World"] /\
  status (getState afterDoneChunk) = idle /\
  (exists r, requests afterDoneChunk !! 0%nat = Some r /\ closed r = false) /\
  activeSubscription afterDoneChunk = Some 0%nat /\
  map content
      (messages
         (getState
            (step doneAdapter exampleOptions afterDoneChunk
                  (AdapterPush 0 (Rx.Next (ChunkString "!"))))))
  = ["test"; "Hello World!"] /\
  status
    (getState
       (step doneAdapter exampleOptions afterDoneChunk
             (AdapterPush 0 (Rx.Next (ChunkString "!")))))
  = streaming.
Proof.
  assert (Hr : requests afterDoneChunk !! 0%nat
               = Some (mkRequest (Js.mkSignal true
                          (Some (Js.DOMException "This operation was aborted" "AbortError")))
                        false "1"))
    by (vm_compute; reflexivity).
  split; [|split; [|split; [|split; [|split]]]]; try (vm_compute; reflexivity).
  eexists. split; [exact Hr | reflexivity].
Qed.

(* ------------------------------------------------------------------ *)
(** ** The theorems at concrete controllers                             *)
(* ------------------------------------------------------------------ *)

Lemma send_blank_and_retry_without_request_are_noops_witness :
  Js.trim "   " = EmptyString /\
  send pendingAdapter exampleOptions "   " None pendingOnAdapter = pendingOnAdapter /\
  lastRequestMessages (createChatController exampleOptions) = None /\
  retryLast pendingAdapter exampleOptions (createChatController exampleOptions)
  = createChatController exampleOptions.
Proof.
  destruct (send_blank_and_retry_without_request_are_noops pendingAdapter exampleOptions)
    as (H1 & H2 & _).
  split; [reflexivity|]. split; [apply H1; reflexivity|].
  split; [reflexivity|]. apply H2. reflexivity.
Defined.







Lemma preaborted_signal_fails_without_subscribing_witness :
  Js.aborted (abortedHeap 0%nat) = true /\
  StreamText.delta_
    (snd (StreamText.streamText (streamOptionsOf exampleLanguageModel (Some 0%nat))))
    abortedHeap
  = {| LM.effects := [];
       LM.delivered :=
         [Rx.Error (Js.DOMException "This operation was aborted" "AbortError")] |} /\
  snd (GenerateText.generateText (generateOptionsOf exampleLanguageModel (Some 0%nat)))
      abortedHeap
  = {| LM.effects := [];
       LM.delivered :=
         [Rx.Error (Js.DOMException "This operation was aborted" "AbortError")] |}.
Proof.
  split; [reflexivity|].
  destruct (preaborted_signal_fails_without_subscribing
              (streamOptionsOf exampleLanguageModel (Some 0%nat))
              (generateOptionsOf exampleLanguageModel (Some 0%nat))
              abortedHeap 0%nat 0%nat eq_refl eq_refl eq_refl eq_refl)
    as (_ & _ & Hd & _ & _ & Hg).
  split; [exact Hd | exact Hg].
Defined.
